(** * Authorization core of the AI Job Readiness backend

    A shallow embedding of
    - [app/utils/jwt_utils.py]      (token issue / verify / expiry queries),
    - [app/utils/response.py]       (error response bodies),
    - [app/middleware/auth_middleware.py] (the request gate),
    - [app/schemas/role.py], [app/api/roles.py] and the [user_roles] /
      [roles] tables of the initial alembic migration (role registry and
      assignment ledger),
    together with the properties of these functions.

    Conventions of the embedding.
    - Python [str] is [string]; the only case mapping used is the ASCII one.
    - A [dict] with string keys is a [gmap string _].
    - Naive [datetime] values and [timedelta]s are whole seconds in [Z]
      (seconds since the epoch for a [datetime]); sub-second resolution is
      not modelled.
    - Python exceptions are values of [exn]; a computation is a function
      from a state to a [result] and a new state, with [try_except] for
      the handlers that the source installs. *)

From Stdlib Require Import ZArith String Ascii.
From stdpp Require Import base option list strings gmap countable pretty.

Local Open Scope string_scope.
Local Open Scope Z_scope.

(** ** Exceptions and the computation monad *)

(** The exception classes that the modelled code can meet.  The first group
    is PyJWT's hierarchy: every one of them except the last derives from
    [jwt.InvalidTokenError]. *)
Inductive exn : Type :=
  | ExpiredSignatureError
  | DecodeError
  | InvalidSignatureError
  | InvalidAlgorithmError
  | ImmatureSignatureError
  | InvalidIssuedAtError
  | InvalidAudienceError
  | TypeError
  | ValueError
  | OverflowError
  | NotImplementedError
  | HTTPException (status_code : Z) (detail : string)
  | IntegrityError
  | MultipleResultsFound.

(** [isinstance(e, jwt.InvalidTokenError)]. *)
Definition is_InvalidTokenError (e : exn) : bool :=
  match e with
  | ExpiredSignatureError | DecodeError | InvalidSignatureError
  | InvalidAlgorithmError | ImmatureSignatureError | InvalidIssuedAtError
  | InvalidAudienceError => true
  | _ => false
  end.

Inductive result (A : Type) : Type :=
  | Return (a : A)
  | Raise (e : exn).
Arguments Return {A} a.
Arguments Raise {A} e.

(** A computation over a state [S]: it returns normally or raises, and in
    both cases leaves a state behind. *)
Definition Py (S A : Type) : Type := S → result A * S.

Definition py_ret {S A} (a : A) : Py S A := λ s, (Return a, s).
Definition py_raise {S A} (e : exn) : Py S A := λ s, (Raise e, s).
Definition py_bind {S A B} (m : Py S A) (k : A → Py S B) : Py S B :=
  λ s, match m s with
       | (Return a, s') => k a s'
       | (Raise e, s') => (Raise e, s')
       end.

Global Instance Py_ret {S} : MRet (Py S) := λ A, py_ret.
Global Instance Py_bind {S} : MBind (Py S) := λ A B k m, py_bind m k.

(** [try: body except ...: handler].  [handler e] is [None] when no
    [except] clause matches [e], which then propagates. *)
Definition try_except {S A} (body : Py S A) (handler : exn → option (Py S A))
  : Py S A :=
  λ s, match body s with
       | (Return a, s') => (Return a, s')
       | (Raise e, s') =>
           match handler e with
           | Some h => h s'
           | None => (Raise e, s')
           end
       end.

(** Lifting a pure, possibly failing step. *)
Definition py_lift {S A} (r : result A) : Py S A := λ s, (r, s).

(** ** Python string and value helpers *)

Module PyStr.

(** [s.startswith(p)]. *)
Definition startswith (s p : string) : bool := String.prefix p s.

(** [x in l] on a list of strings. *)
Definition contains (l : list string) (x : string) : bool :=
  existsb (String.eqb x) l.

(** ASCII case mapping, the part of [str.lower] on code points < 128. *)
Definition lower_ascii (c : ascii) : ascii :=
  let n := nat_of_ascii c in
  if ((65 <=? n)%nat && (n <=? 90)%nat)%bool then ascii_of_nat (n + 32) else c.

Fixpoint lower (s : string) : string :=
  match s with
  | EmptyString => EmptyString
  | String c r => String (lower_ascii c) (lower r)
  end.


Fixpoint all_chars (f : ascii → bool) (s : string) : bool :=
  match s with
  | EmptyString => true
  | String c r => (f c && all_chars f r)%bool
  end.



(** [s.split(sep, 1)] for a one-character separator: the text before the
    first [sep] and the text after it, or [s] alone when there is none. *)
Fixpoint split_once (sep : ascii) (s : string) : list string :=
  match s with
  | EmptyString => [EmptyString]
  | String c r =>
      if Ascii.eqb c sep then [EmptyString; r]
      else match split_once sep r with
           | [a] => [String c a]
           | a :: rest => String c a :: rest
           | [] => []
           end
  end.

End PyStr.

(** JSON scalars, the values a token claim can hold in this model. *)
Inductive jval : Type :=
  | JNull
  | JBool (b : bool)
  | JInt (z : Z)
  | JStr (s : string).

Global Instance jval_eq_dec : EqDecision jval.
Proof. solve_decision. Defined.

Global Instance jval_countable : Countable jval.
Proof.
  refine (inj_countable'
    (λ v, match v with
          | JNull => inl (inl ()) | JBool b => inl (inr b)
          | JInt z => inr (inl z) | JStr s => inr (inr s)
          end)
    (λ x, match x with
          | inl (inl _) => JNull | inl (inr b) => JBool b
          | inr (inl z) => JInt z | inr (inr s) => JStr s
          end) _).
  by intros [].
Defined.

(** Python truthiness of a value obtained with [dict.get]: [None] when the
    key is absent. *)
Definition truthy (v : option jval) : bool :=
  match v with
  | None | Some JNull => false
  | Some (JBool b) => b
  | Some (JInt z) => negb (z =? 0)
  | Some (JStr s) => negb (String.eqb s "")
  end.

Abbreviation payload := (gmap string jval).

(** ** Response bodies ([app/utils/response.py]) *)

(** [ResponseModel].  The body that is sent is
    [model_dump(exclude_none=True)]: a field that is [None] here is absent
    from the JSON object. *)
Record ResponseModel : Type := {
  success : bool;
  message : string;
  data : option jval;
  errors : option (list string);
  meta : option (gmap string jval)
}.

Record JSONResponse : Type := {
  content : ResponseModel;
  status_code : Z
}.

Definition HTTP_400_BAD_REQUEST : Z := 400.
Definition HTTP_401_UNAUTHORIZED : Z := 401.

Definition create_error_response (message : string)
    (errors : option (list string)) (status_code : Z)
    (meta : option (gmap string jval)) : JSONResponse :=
  let response_data :=
    {| success := false; message := message; data := None;
       errors := errors; meta := meta |} in
  {| content := response_data; status_code := status_code |}.

(** [PaginationMeta] and [PaginatedResponseModel]; the items of a page are
    of any type. *)
Record PaginationMeta : Type := {
  page : Z;
  per_page : Z;
  total : Z;
  pages : Z;
  has_next : bool;
  has_prev : bool
}.

Record PaginatedResponseModel (A : Type) : Type := {
  paginated_success : bool;
  paginated_message : string;
  paginated_data : list A;
  pagination : PaginationMeta;
  paginated_meta : option (gmap string jval)
}.
Arguments paginated_success {A} _.
Arguments paginated_message {A} _.
Arguments paginated_data {A} _.
Arguments pagination {A} _.
Arguments paginated_meta {A} _.

(** [create_paginated_response]; the status is always 200.  [//] is
    Python's floor division, which [Z.div] is; with [per_page = 0] it
    raises [ZeroDivisionError], which is [None] here. *)
Definition create_paginated_response {A} (data : list A)
    (page per_page total : Z) (message : string)
    (meta : option (gmap string jval))
  : option (PaginatedResponseModel A * Z) :=
  if per_page =? 0 then None
  else
    let pages := (total + per_page - 1) / per_page in
    let has_next := page <? pages in
    let has_prev := 1 <? page in
    let pagination :=
      {| page := page; per_page := per_page; total := total;
         pages := pages; has_next := has_next; has_prev := has_prev |} in
    Some ({| paginated_success := true; paginated_message := message;
             paginated_data := data; pagination := pagination;
             paginated_meta := meta |}, 200).

(** ** Settings ([app/core/config.py], [SecuritySettings]) *)

Record SecuritySettings : Type := {
  secret_key : string;
  algorithm : string;
  access_token_expire_minutes : Z;
  refresh_token_expire_days : Z;
  users_secret : string
}.

(** The field defaults of [SecuritySettings]. *)
Definition default_settings : SecuritySettings := {|
  secret_key := "your-secret-key-change-in-production";
  algorithm := "HS256";
  access_token_expire_minutes := 60;
  refresh_token_expire_days := 7;
  users_secret := "your-users-secret-change-in-production"
|}.

(** ** The PyJWT library, as the repository uses it

    PyJWT is a dependency, not part of the repository.  Its wire format and
    its MAC are kept abstract in the class [JWTLib]; what [jwt.encode] and
    [jwt.decode] do with them (signature first, then the registered claims
    [iat], [nbf], [exp], [aud]) follows the library's documented behaviour
    for the 2.x series. *)

Class JWTLib : Type := {
  (** the compact serialisation of a signed claim set, [None] when the
      algorithm is not supported *)
  jws_encode : payload → string → string → option string;
  (** the claim set carried by a token string, whatever its signature;
      [None] when the string is not three base64url segments around a JSON
      object *)
  jws_payload : string → option payload;
  (** the signature check of a token under a key, for a list of accepted
      algorithms *)
  jws_verify : string → string → list string → bool;
  jws_supported : string → bool;
  (** the builtin [int] on a [str] *)
  int_of_str : string → option Z;
  jws_encode_supported : ∀ p k a,
    jws_supported a = true → is_Some (jws_encode p k a);
  jws_payload_encode : ∀ p k a t,
    jws_encode p k a = Some t → jws_payload t = Some p;
  jws_verify_encode : ∀ p k a t,
    jws_encode p k a = Some t → jws_verify t k [a] = true
}.

(** The builtin [int] on a claim value. *)
Definition py_int `{JWTLib} (v : jval) : result Z :=
  match v with
  | JInt z => Return z
  | JBool b => Return (if b then 1 else 0)
  | JStr s => match int_of_str s with
              | Some z => Return z
              | None => Raise ValueError
              end
  | JNull => Raise TypeError
  end.

(** The range of [datetime]: years 1 to 9999. *)
Definition datetime_min : Z := -62135596800.
Definition datetime_max : Z := 253402300799.

Section TokenCore.

(** The environment of the token code: the JWT library, the system clock
    (the i-th reading of the process gives [clock i], in whole seconds
    since the epoch), the offset of local time from UTC, in seconds, at a
    given timestamp, and the security settings. *)
Context `{lib : JWTLib}.
Variable clock : nat → Z.
Variable utcoffset : Z → Z.
Variable settings : SecuritySettings.

(** The state of a token computation is the number of clock readings made
    so far whose value the code uses. *)
Definition utcnow : Py nat Z := λ i, (Return (clock i), S i).

(** [jwt.encode(payload, key, algorithm=alg)]. *)
Definition jwt_encode (p : payload) (key alg : string) : Py nat string :=
  match jws_encode p key alg with
  | Some t => mret t
  | None => py_raise NotImplementedError
  end.

Definition _validate_iat (p : payload) (now : Z) : Py nat unit :=
  match p !! "iat" with
  | None => mret ()
  | Some v =>
      iat ← try_except (py_lift (py_int v))
               (λ e, match e with
                     | ValueError => Some (py_raise InvalidIssuedAtError)
                     | _ => None
                     end);
      if now <? iat then py_raise ImmatureSignatureError else mret ()
  end.

Definition _validate_nbf (p : payload) (now : Z) : Py nat unit :=
  match p !! "nbf" with
  | None => mret ()
  | Some v =>
      nbf ← try_except (py_lift (py_int v))
               (λ e, match e with
                     | ValueError => Some (py_raise DecodeError)
                     | _ => None
                     end);
      if now <? nbf then py_raise ImmatureSignatureError else mret ()
  end.

Definition _validate_exp (p : payload) (now : Z) : Py nat unit :=
  match p !! "exp" with
  | None => mret ()
  | Some v =>
      exp ← try_except (py_lift (py_int v))
               (λ e, match e with
                     | ValueError => Some (py_raise DecodeError)
                     | _ => None
                     end);
      if exp <=? now then py_raise ExpiredSignatureError else mret ()
  end.

(** No audience is ever passed by the repository. *)
Definition _validate_aud (p : payload) : Py nat unit :=
  if truthy (p !! "aud") then py_raise InvalidAudienceError else mret ().

Definition _validate_claims (p : payload) : Py nat unit :=
  now ← utcnow;
  _ ← _validate_iat p now;
  _ ← _validate_nbf p now;
  _ ← _validate_exp p now;
  _validate_aud p.

(** [jwt.decode(token, key, algorithms=algs)]: the token is parsed, its
    signature checked, and then its claims validated.  A string that does
    not parse raises [DecodeError] and a bad signature
    [InvalidSignatureError]; both derive from [InvalidTokenError]. *)
Definition jwt_decode (token key : string) (algs : list string)
  : Py nat payload :=
  match jws_payload token with
  | None => py_raise DecodeError
  | Some p =>
      if jws_verify token key algs then
        _ ← _validate_claims p; mret p
      else py_raise InvalidSignatureError
  end.

(** [jwt.decode(token, options={"verify_signature": False})]: neither the
    signature nor any claim is checked. *)
Definition jwt_decode_unverified (token : string) : Py nat payload :=
  match jws_payload token with
  | None => py_raise DecodeError
  | Some p => mret p
  end.

(** [datetime.fromtimestamp(v)]: the naive local time of a timestamp.  A
    [bool] is an [int]; any other non-integer is a [TypeError], and a time
    outside the years 1 to 9999 an [OverflowError]. *)
Definition fromtimestamp (v : option jval) : Py nat Z :=
  match v with
  | Some (JInt z) =>
      if (datetime_min <=? z + utcoffset z) && (z + utcoffset z <=? datetime_max)
      then mret (z + utcoffset z) else py_raise OverflowError
  | Some (JBool b) =>
      let z := if b then 1 else 0 in
      if (datetime_min <=? z + utcoffset z) && (z + utcoffset z <=? datetime_max)
      then mret (z + utcoffset z) else py_raise OverflowError
  | _ => py_raise TypeError
  end.

(** *** [JWTTokenManager] ([app/utils/jwt_utils.py]) *)

(** [expires_delta] is a [timedelta] in seconds; [timedelta(0)] is falsy. *)
Definition create_access_token (subject : string) (expires_delta : option Z)
  : Py nat string :=
  try_except
    (expire ← match expires_delta with
              | Some d =>
                  if negb (d =? 0) then now ← utcnow; mret (now + d)
                  else now ← utcnow;
                       mret (now + 60 * access_token_expire_minutes settings)
              | None =>
                  now ← utcnow;
                  mret (now + 60 * access_token_expire_minutes settings)
              end;
     iat ← utcnow;
     let to_encode : payload :=
       <["exp" := JInt expire]> (<["sub" := JStr subject]>
         (<["type" := JStr "access"]> (<["iat" := JInt iat]> ∅))) in
     jwt_encode to_encode (secret_key settings) (algorithm settings))
    (λ _, Some (py_raise
       (HTTPException 500 "Failed to create access token"))).

Definition create_refresh_token (subject : string) : Py nat string :=
  try_except
    (now ← utcnow;
     let expire := now + 86400 * refresh_token_expire_days settings in
     iat ← utcnow;
     let to_encode : payload :=
       <["exp" := JInt expire]> (<["sub" := JStr subject]>
         (<["type" := JStr "refresh"]> (<["iat" := JInt iat]> ∅))) in
     jwt_encode to_encode (users_secret settings) (algorithm settings))
    (λ _, Some (py_raise
       (HTTPException 500 "Failed to create refresh token"))).

(** The three [except] clauses of the verifiers all return [None]. *)
Definition verify_handlers (e : exn) : option (Py nat (option payload)) :=
  match e with
  | ExpiredSignatureError => Some (mret None)
  | _ => if is_InvalidTokenError e then Some (mret None)
         else Some (mret None)
  end.

Definition verify_access_token (token : string) : Py nat (option payload) :=
  try_except
    (payload ← jwt_decode token (secret_key settings) [algorithm settings];
     if bool_decide (payload !! "type" ≠ Some (JStr "access"))
     then mret None
     else mret (Some payload))
    verify_handlers.

Definition verify_refresh_token (token : string) : Py nat (option payload) :=
  try_except
    (payload ← jwt_decode token (users_secret settings) [algorithm settings];
     if bool_decide (payload !! "type" ≠ Some (JStr "refresh"))
     then mret None
     else mret (Some payload))
    verify_handlers.

Definition get_token_expiration (token : string) : Py nat (option Z) :=
  try_except
    (payload ← jwt_decode_unverified token;
     let exp_timestamp := payload !! "exp" in
     if truthy exp_timestamp then
       d ← fromtimestamp exp_timestamp; mret (Some d)
     else mret None)
    (λ _, Some (mret None)).

Definition is_token_expired (token : string) : Py nat bool :=
  try_except
    (exp_time ← get_token_expiration token;
     match exp_time with
     | Some t => now ← utcnow; mret (t <=? now)
     | None => mret true
     end)
    (λ _, Some (mret true)).

Definition get_token_remaining_time (token : string) : Py nat (option Z) :=
  try_except
    (exp_time ← get_token_expiration token;
     match exp_time with
     | Some t =>
         now ← utcnow;
         let remaining := t - now in
         mret (Some (if 0 <? remaining then remaining else 0))
     | None => mret None
     end)
    (λ _, Some (mret None)).

Definition create_token_pair (user_id : string) : Py nat (string * string) :=
  access_token ← create_access_token user_id None;
  refresh_token ← create_refresh_token user_id;
  mret (access_token, refresh_token).

Definition error_messages (error_type : string) : option string :=
  if String.eqb error_type "expired" then
    Some "Access token has expired. Please re-authenticate."
  else if String.eqb error_type "invalid" then
    Some "Invalid access token. Please re-authenticate."
  else if String.eqb error_type "missing" then
    Some "Access token is required. Please provide a valid token."
  else if String.eqb error_type "malformed" then
    Some "Malformed access token. Please re-authenticate."
  else if String.eqb error_type "refresh_expired" then
    Some "Refresh token has expired. Please login again."
  else if String.eqb error_type "refresh_invalid" then
    Some "Invalid refresh token. Please login again."
  else None.

(** [message or error_messages.get(error_type, "Authentication error")]:
    an empty custom message is falsy. *)
Definition handle_token_error (error_type : string) (message : option string)
  : JSONResponse :=
  let error_message :=
    match message with
    | Some m => if String.eqb m "" then
                  default "Authentication error" (error_messages error_type)
                else m
    | None => default "Authentication error" (error_messages error_type)
    end in
  if PyStr.contains ["expired"; "refresh_expired"] error_type then
    create_error_response error_message (Some [error_type])
      HTTP_401_UNAUTHORIZED None
  else if PyStr.contains ["invalid"; "malformed"; "refresh_invalid"] error_type
  then
    create_error_response error_message (Some [error_type])
      HTTP_401_UNAUTHORIZED None
  else if String.eqb error_type "missing" then
    create_error_response error_message (Some [error_type])
      HTTP_401_UNAUTHORIZED None
  else
    create_error_response error_message (Some [error_type])
      HTTP_401_UNAUTHORIZED None.

Definition validate_token_expiration (token : string) : Py nat bool :=
  try_except
    (expired ← is_token_expired token;
     if expired : bool then mret false
     else
       _ ← get_token_remaining_time token;
       mret true)
    (λ _, Some (mret false)).

(** *** The request gate ([app/middleware/auth_middleware.py]) *)

Record JWTAuthMiddleware : Type := {
  excluded_paths : list string
}.

Definition default_excluded_paths : list string :=
  [ "/"; "/health"; "/docs"; "/redoc"; "/openapi.json";
    "/api/v1/auth/register"; "/api/v1/auth/jwt/login";
    "/api/v1/auth/jwt/refresh"; "/api/v1/info"; "/api/v1/performance";
    "/api/v1/cache/status" ].

(** [__init__]: [excluded_paths or [...]]; an empty list is falsy too. *)
Definition JWTAuthMiddleware_init (excluded : option (list string))
  : JWTAuthMiddleware :=
  {| excluded_paths :=
       match excluded with
       | Some (p :: l) => p :: l
       | _ => default_excluded_paths
       end |}.

(** What the gate reads of a request: [request.url.path] and
    [request.headers.get("Authorization")]. *)
Record Request : Type := {
  url_path : string;
  authorization : option string
}.

(** [request.state] as the gate leaves it. *)
Record RequestState : Type := {
  state_user_id : option jval;
  state_token_payload : option payload
}.

Definition empty_state : RequestState :=
  {| state_user_id := None; state_token_payload := None |}.

(** The gate either hands the request to [call_next] or answers itself. *)
Inductive Outcome : Type :=
  | CallNext (st : RequestState)
  | Respond (r : JSONResponse).

Definition _should_skip_auth (self : JWTAuthMiddleware) (path : string)
  : bool :=
  if PyStr.contains (excluded_paths self) path then true
  else existsb (λ excluded_path, PyStr.startswith path excluded_path)
         (excluded_paths self).

(** Unpacking the result of [split] into two names raises [ValueError]
    unless there are exactly two parts; the source catches it and returns
    [None]. *)
Definition _extract_token (request : Request) : option string :=
  match authorization request with
  | None => None
  | Some a =>
      if String.eqb a "" then None
      else match PyStr.split_once " " a with
           | [scheme; token] =>
               if negb (String.eqb (PyStr.lower scheme) "bearer") then None
               else Some token
           | _ => None
           end
  end.

Definition _validate_token (token : string) : Py nat bool :=
  try_except
    (payload ← verify_access_token token;
     mret (bool_decide (payload ≠ None)))
    (λ _, Some (mret false)).

Definition dispatch (self : JWTAuthMiddleware) (request : Request)
  : Py nat Outcome :=
  if _should_skip_auth self (url_path request) then mret (CallNext empty_state)
  else
    match _extract_token request with
    | None => mret (Respond (handle_token_error "missing" None))
    | Some token =>
        if String.eqb token "" then
          mret (Respond (handle_token_error "missing" None))
        else
          valid ← _validate_token token;
          if negb valid then
            mret (Respond (handle_token_error "invalid" None))
          else
            fresh ← validate_token_expiration token;
            if negb fresh then
              mret (Respond (handle_token_error "expired" None))
            else
              payload ← verify_access_token token;
              match payload with
              | Some p =>
                  if bool_decide (p ≠ ∅) then
                    mret (CallNext {| state_user_id := p !! "sub";
                                      state_token_payload := Some p |})
                  else mret (CallNext empty_state)
              | None => mret (CallNext empty_state)
              end
    end.

(** [get_current_user_id] and [get_token_payload] read [request.state] as
    the gate left it; an attribute that was never set reads as [None]. *)
Definition get_current_user_id (st : RequestState) : result jval :=
  match state_user_id st with
  | Some user_id =>
      if negb (truthy (Some user_id)) then
        Raise (HTTPException HTTP_401_UNAUTHORIZED "User not authenticated")
      else Return user_id
  | None =>
      Raise (HTTPException HTTP_401_UNAUTHORIZED "User not authenticated")
  end.

Definition get_token_payload (st : RequestState) : result payload :=
  match state_token_payload st with
  | Some p =>
      if bool_decide (p = ∅) then
        Raise (HTTPException HTTP_401_UNAUTHORIZED "Token payload not found")
      else Return p
  | None =>
      Raise (HTTPException HTTP_401_UNAUTHORIZED "Token payload not found")
  end.

End TokenCore.

(** ** Role registry and assignment ledger

    [app/schemas/role.py], [app/api/roles.py], and the tables [users],
    [roles] and [user_roles] as the initial migration creates them. *)

Module Roles.

(** *** Storage *)

Record UserRow : Type := {
  u_id : string;
  u_email : string
}.

(** [roles]: [id SERIAL PRIMARY KEY], [name ... UNIQUE]. *)
Record RoleRow : Type := {
  role_id : Z;
  role_name : string;
  role_description : option string;
  role_permissions : option (list string);
  role_is_active : bool
}.

(** [user_roles]: [id SERIAL PRIMARY KEY], foreign keys to [users] and
    [roles] with [ON DELETE CASCADE], [UNIQUE (user_id, role_id)]. *)
Record UserRoleRow : Type := {
  ur_id : Z;
  ur_user_id : string;
  ur_role_id : Z;
  ur_assigned_at : Z;
  ur_assigned_by : option string;
  ur_is_active : bool
}.

(** The database: the three tables, the two [SERIAL] sequences (the last
    value handed out) and the time [now()] of the server. *)
Record DB : Type := {
  users : list UserRow;
  roles : list RoleRow;
  user_roles : list UserRoleRow;
  roles_id_seq : Z;
  user_roles_id_seq : Z;
  db_now : Z
}.

(** [result.scalar_one_or_none()]. *)
Definition scalar_one_or_none {A} (rows : list A) : Py DB (option A) :=
  match rows with
  | [] => mret None
  | [x] => mret (Some x)
  | _ => py_raise MultipleResultsFound
  end.

(** [db.add(role); await db.commit()]: the row gets the next value of the
    sequence; the primary key and [UNIQUE (name)] are checked, and a
    violation raises [IntegrityError] and leaves the tables as they were. *)
Definition insert_role (name : string) (description : option string)
    (permissions : option (list string)) (is_active : bool)
  : Py DB RoleRow :=
  λ db,
    let row := {| role_id := roles_id_seq db + 1; role_name := name;
                  role_description := description;
                  role_permissions := permissions;
                  role_is_active := is_active |} in
    if existsb (λ r, (role_id r =? role_id row)
                     || String.eqb (role_name r) name) (roles db)
    then (Raise IntegrityError, db)
    else (Return row,
          {| users := users db; roles := roles db ++ [row];
             user_roles := user_roles db;
             roles_id_seq := roles_id_seq db + 1;
             user_roles_id_seq := user_roles_id_seq db;
             db_now := db_now db |}).

(** [db.add(user_role); await db.commit()]: primary key, both foreign
    keys and [UNIQUE (user_id, role_id)] are checked; [assigned_at]
    defaults to [now()]. *)
Definition insert_user_role (user_id : string) (role : Z)
    (assigned_by : option string) (is_active : bool)
  : Py DB UserRoleRow :=
  λ db,
    let row := {| ur_id := user_roles_id_seq db + 1; ur_user_id := user_id;
                  ur_role_id := role; ur_assigned_at := db_now db;
                  ur_assigned_by := assigned_by;
                  ur_is_active := is_active |} in
    if existsb (λ r, (ur_id r =? ur_id row)
                     || (String.eqb (ur_user_id r) user_id
                         && (ur_role_id r =? role))) (user_roles db)
       || negb (existsb (λ u, String.eqb (u_id u) user_id) (users db))
       || negb (existsb (λ r, role_id r =? role) (roles db))
    then (Raise IntegrityError, db)
    else (Return row,
          {| users := users db; roles := roles db;
             user_roles := user_roles db ++ [row];
             roles_id_seq := roles_id_seq db;
             user_roles_id_seq := user_roles_id_seq db + 1;
             db_now := db_now db |}).

(** [await db.delete(role); await db.commit()]: the row goes, and with it
    every [user_roles] row that references it ([ON DELETE CASCADE]). *)
Definition delete_role_row (role : RoleRow) : Py DB unit :=
  λ db,
    (Return (),
     {| users := users db;
        roles := filter (λ r, role_id r ≠ role_id role) (roles db);
        user_roles :=
          filter (λ r, ur_role_id r ≠ role_id role) (user_roles db);
        roles_id_seq := roles_id_seq db;
        user_roles_id_seq := user_roles_id_seq db;
        db_now := db_now db |}).

(** [assignment.is_active = False; await db.commit()]. *)
Definition deactivate_user_role (assignment : UserRoleRow) : Py DB unit :=
  λ db,
    (Return (),
     {| users := users db; roles := roles db;
        user_roles :=
          map (λ r, if ur_id r =? ur_id assignment then
                      {| ur_id := ur_id r; ur_user_id := ur_user_id r;
                         ur_role_id := ur_role_id r;
                         ur_assigned_at := ur_assigned_at r;
                         ur_assigned_by := ur_assigned_by r;
                         ur_is_active := false |}
                    else r) (user_roles db);
        roles_id_seq := roles_id_seq db;
        user_roles_id_seq := user_roles_id_seq db;
        db_now := db_now db |}).

Definition get_db : Py DB DB := λ db, (Return db, db).

(** *** Schemas ([app/schemas/role.py]) *)

Record RoleCreate : Type := {
  name : string;
  description : option string;
  permissions : option (list string);
  is_active : bool
}.





Record UserRoleAssignment : Type := {
  user_id : string;
  assignment_role_id : Z;
  assigned_by : option string
}.

Record RoleResponse : Type := {
  response_success : bool;
  response_message : string;
  response_data : option RoleRow
}.

(** *** Handlers ([app/api/roles.py]) *)

(** The authenticated caller.  [has_role] is the method of the [User]
    model, which is not among the sources; it is carried as a function. *)
Record CurrentUser : Type := {
  cu_id : string;
  is_superuser : bool;
  has_role : string → bool
}.

Definition HTTP_403_FORBIDDEN : Z := 403.
Definition HTTP_404_NOT_FOUND : Z := 404.

(** [Role.set_permissions_list] belongs to the [Role] model, which is not
    among the sources; it only decides the stored form of the permissions
    column, which is kept here as the list that was sent. *)
Definition create_role (role_data : RoleCreate) (current_user : CurrentUser)
  : Py DB RoleResponse :=
  if negb (is_superuser current_user) && negb (has_role current_user "admin")
  then py_raise (HTTPException HTTP_403_FORBIDDEN
                   "Insufficient permissions to create roles")
  else
    db ← get_db;
    existing_role ← scalar_one_or_none
      (filter (λ r, role_name r = name role_data) (roles db));
    match existing_role with
    | Some _ =>
        py_raise (HTTPException HTTP_400_BAD_REQUEST
          ("Role with name '" ++ name role_data ++ "' already exists"))
    | None =>
        role ← insert_role (name role_data) (description role_data)
                 (permissions role_data) (is_active role_data);
        mret {| response_success := true;
                response_message := "Role created successfully";
                response_data := Some role |}
    end.

Definition delete_role (role_id' : Z) (current_user : CurrentUser)
  : Py DB RoleResponse :=
  if negb (is_superuser current_user) && negb (has_role current_user "admin")
  then py_raise (HTTPException HTTP_403_FORBIDDEN
                   "Insufficient permissions to delete roles")
  else
    db ← get_db;
    role ← scalar_one_or_none (filter (λ r, role_id r = role_id') (roles db));
    match role with
    | None =>
        py_raise (HTTPException HTTP_404_NOT_FOUND
          ("Role with ID " ++ pretty role_id' ++ " not found"))
    | Some role =>
        let user_roles_count :=
          length (filter (λ r, ur_role_id r = role_id') (user_roles db)) in
        if (0 <? user_roles_count)%nat then
          py_raise (HTTPException HTTP_400_BAD_REQUEST
            "Cannot delete role that is assigned to users. Remove all assignments first.")
        else
          _ ← delete_role_row role;
          mret {| response_success := true;
                  response_message := "Role deleted successfully";
                  response_data := None |}
    end.

Definition assign_role_to_user (assignment : UserRoleAssignment)
    (current_user : CurrentUser) : Py DB RoleResponse :=
  if negb (is_superuser current_user) && negb (has_role current_user "admin")
  then py_raise (HTTPException HTTP_403_FORBIDDEN
                   "Insufficient permissions to assign roles")
  else
    db ← get_db;
    user ← scalar_one_or_none
      (filter (λ u, u_id u = user_id assignment) (users db));
    match user with
    | None =>
        py_raise (HTTPException HTTP_404_NOT_FOUND
          ("User with ID " ++ user_id assignment ++ " not found"))
    | Some _ =>
        role ← scalar_one_or_none
          (filter (λ r, role_id r = assignment_role_id assignment) (roles db));
        match role with
        | None =>
            py_raise (HTTPException HTTP_404_NOT_FOUND
              ("Role with ID " ++ pretty (assignment_role_id assignment)
               ++ " not found"))
        | Some role =>
            if negb (role_is_active role) then
              py_raise (HTTPException HTTP_400_BAD_REQUEST
                          "Cannot assign inactive role")
            else
              existing_assignment ← scalar_one_or_none
                (filter (λ r, ur_user_id r = user_id assignment
                              ∧ ur_role_id r = assignment_role_id assignment
                              ∧ ur_is_active r = true) (user_roles db));
              match existing_assignment with
              | Some _ =>
                  py_raise (HTTPException HTTP_400_BAD_REQUEST
                              "User already has this role assigned")
              | None =>
                  _ ← insert_user_role (user_id assignment)
                        (assignment_role_id assignment)
                        (Some (default (cu_id current_user)
                                 (assigned_by assignment)))
                        true;
                  mret {| response_success := true;
                          response_message :=
                            "Role '" ++ role_name role
                            ++ "' assigned to user successfully";
                          response_data := None |}
              end
        end
    end.

Definition remove_role_from_user (assignment_id : Z)
    (current_user : CurrentUser) : Py DB RoleResponse :=
  if negb (is_superuser current_user) && negb (has_role current_user "admin")
  then py_raise (HTTPException HTTP_403_FORBIDDEN
                   "Insufficient permissions to remove role assignments")
  else
    db ← get_db;
    assignment ← scalar_one_or_none
      (filter (λ r, ur_id r = assignment_id) (user_roles db));
    match assignment with
    | None =>
        py_raise (HTTPException HTTP_404_NOT_FOUND
          ("Role assignment with ID " ++ pretty assignment_id ++ " not found"))
    | Some assignment =>
        _ ← deactivate_user_role assignment;
        mret {| response_success := true;
                response_message := "Role assignment removed successfully";
                response_data := None |}
    end.

(** [RoleUpdate].  A field is [None] when the request body leaves it out
    (it is then absent from [dict(exclude_unset=True)]) and [Some None]
    when the body sets it to [null]. *)
Record RoleUpdate : Type := {
  update_name : option (option string);
  update_description : option (option string);
  update_permissions : option (option (list string));
  update_is_active : option (option bool)
}.



(** [await db.commit()] after the attributes of a role row were set: the
    columns [name] and [is_active] are [NOT NULL] and [name] is [UNIQUE];
    a violation raises [IntegrityError] and leaves the table as it was. *)
Definition update_role_row (id : Z) (new_name : option string)
    (new_description : option string)
    (new_permissions : option (list string)) (new_is_active : option bool)
  : Py DB RoleRow :=
  λ db,
    match new_name, new_is_active with
    | Some n, Some a =>
        if existsb (λ r, negb (role_id r =? id) && String.eqb (role_name r) n)
             (roles db)
        then (Raise IntegrityError, db)
        else
          let row := {| role_id := id; role_name := n;
                        role_description := new_description;
                        role_permissions := new_permissions;
                        role_is_active := a |} in
          (Return row,
           {| users := users db;
              roles := map (λ r, if role_id r =? id then row else r) (roles db);
              user_roles := user_roles db;
              roles_id_seq := roles_id_seq db;
              user_roles_id_seq := user_roles_id_seq db;
              db_now := db_now db |})
    | _, _ => (Raise IntegrityError, db)
    end.

(** The handler sets [role.updated_at] as well; the timestamps of a role
    are not columns of [RoleRow]. *)
Definition update_role (role_id' : Z) (role_data : RoleUpdate)
    (current_user : CurrentUser) : Py DB RoleResponse :=
  if negb (is_superuser current_user) && negb (has_role current_user "admin")
  then py_raise (HTTPException HTTP_403_FORBIDDEN
                   "Insufficient permissions to update roles")
  else
    db ← get_db;
    role ← scalar_one_or_none (filter (λ r, role_id r = role_id') (roles db));
    match role with
    | None =>
        py_raise (HTTPException HTTP_404_NOT_FOUND
          ("Role with ID " ++ pretty role_id' ++ " not found"))
    | Some role =>
        _ ← match update_name role_data with
            | Some (Some n) =>
                if negb (String.eqb n "") && negb (String.eqb n (role_name role))
                then
                  existing_role ← scalar_one_or_none
                    (filter (λ r, role_name r = n) (roles db));
                  match existing_role with
                  | Some _ =>
                      py_raise (HTTPException HTTP_400_BAD_REQUEST
                        ("Role with name '" ++ n ++ "' already exists"))
                  | None => mret ()
                  end
                else mret ()
            | _ => mret ()
            end;
        let new_name :=
          match update_name role_data with
          | Some v => v
          | None => Some (role_name role)
          end in
        let new_description :=
          match update_description role_data with
          | Some v => v
          | None => role_description role
          end in
        let new_permissions :=
          match update_permissions role_data with
          | Some v => v
          | None => role_permissions role
          end in
        let new_is_active :=
          match update_is_active role_data with
          | Some v => v
          | None => Some (role_is_active role)
          end in
        role ← update_role_row (role_id role) new_name new_description
                 new_permissions new_is_active;
        mret {| response_success := true;
                response_message := "Role updated successfully";
                response_data := Some role |}
    end.

Definition get_role (role_id' : Z) : Py DB RoleResponse :=
  db ← get_db;
  role ← scalar_one_or_none (filter (λ r, role_id r = role_id') (roles db));
  match role with
  | None =>
      py_raise (HTTPException HTTP_404_NOT_FOUND
        ("Role with ID " ++ pretty role_id' ++ " not found"))
  | Some role =>
      mret {| response_success := true;
              response_message := "Role retrieved successfully";
              response_data := Some role |}
  end.

Record UserRoleListResponse : Type := {
  list_success : bool;
  list_message : string;
  list_data : list UserRoleRow;
  list_total : Z
}.

(** [get_user_roles]: the assignments of an account, in the order in which
    the table holds them (the query has no [ORDER BY]).  The entries of
    the response are the columns of the rows. *)
Definition get_user_roles (user_id' : string) (active_only : bool)
  : Py DB UserRoleListResponse :=
  db ← get_db;
  user ← scalar_one_or_none (filter (λ u, u_id u = user_id') (users db));
  match user with
  | None =>
      py_raise (HTTPException HTTP_404_NOT_FOUND
        ("User with ID " ++ user_id' ++ " not found"))
  | Some _ =>
      let assignments :=
        filter (λ r, ur_user_id r = user_id'
                     ∧ (active_only = true → ur_is_active r = true))
          (user_roles db) in
      mret {| list_success := true;
              list_message :=
                "Retrieved " ++ pretty (Z.of_nat (length assignments))
                ++ " role assignments for user";
              list_data := assignments;
              list_total := Z.of_nat (length assignments) |}
  end.

Record RoleListResponse : Type := {
  roles_success : bool;
  roles_message : string;
  roles_data : list RoleRow;
  roles_total : Z;
  roles_page : Z;
  roles_per_page : Z;
  roles_has_next : bool;
  roles_has_prev : bool
}.

Section RoleListing.

(** What the database decides in [get_roles]: whether a value matches a
    pattern under [ILIKE], and the order of [ORDER BY name] under its
    collation. *)
Variable ilike : string → string → bool.
Variable order_by_name : list RoleRow → list RoleRow.

(** The [WHERE] clauses of [get_roles].  A [NULL] description matches no
    pattern; an empty search term is no filter. *)
Definition role_selected (active_only : bool) (search : option string)
    (r : RoleRow) : bool :=
  (if active_only then role_is_active r else true)
  && match search with
     | Some term =>
         if negb (String.eqb term "") then
           let search_term := "%" ++ term ++ "%" in
           ilike search_term (role_name r)
           || match role_description r with
              | Some d => ilike search_term d
              | None => false
              end
         else true
     | None => true
     end.

(** [skip] and [limit] are checked by the framework before the handler
    runs ([ge=0]; [ge=1], [le=1000]). *)
Definition get_roles (skip limit : Z) (active_only : bool)
    (search : option string) : Py DB RoleListResponse :=
  db ← get_db;
  let selected :=
    filter (λ r, role_selected active_only search r = true) (roles db) in
  let total := Z.of_nat (length selected) in
  let roles :=
    take (Z.to_nat limit) (drop (Z.to_nat skip) (order_by_name selected)) in
  mret {| roles_success := true;
          roles_message :=
            "Retrieved " ++ pretty (Z.of_nat (length roles)) ++ " roles";
          roles_data := roles;
          roles_total := total;
          roles_page := skip / limit + 1;
          roles_per_page := limit;
          roles_has_next := skip + limit <? total;
          roles_has_prev := 0 <? skip |}.

End RoleListing.

(** The callers that pass the permission check of the handlers. *)
Definition authorised (cu : CurrentUser) : Prop :=
  is_superuser cu = true ∨ has_role cu "admin" = true.

(** The constraints of the schema, as an invariant of the database: keys
    are unique, the sequences are ahead of the keys in use, and every
    assignment references an existing user and role. *)
Record db_wf (db : DB) : Prop := {
  wf_user_ids : NoDup (u_id <$> users db);
  wf_role_ids : NoDup (role_id <$> roles db);
  wf_role_names : NoDup (role_name <$> roles db);
  wf_role_seq : ∀ r, r ∈ roles db → role_id r ≤ roles_id_seq db;
  wf_ur_ids : NoDup (ur_id <$> user_roles db);
  wf_ur_pairs : NoDup ((λ r, (ur_user_id r, ur_role_id r)) <$> user_roles db);
  wf_ur_seq : ∀ r, r ∈ user_roles db → ur_id r ≤ user_roles_id_seq db;
  wf_ur_user : ∀ r, r ∈ user_roles db → ur_user_id r ∈ (u_id <$> users db);
  wf_ur_role : ∀ r, r ∈ user_roles db → ur_role_id r ∈ (role_id <$> roles db)
}.

End Roles.

(** ** A symbolic JWT library

    An instance of [JWTLib] with an ideal MAC: a token is the
    serialisation of its claim set, its key and its algorithm, and a
    signature is valid exactly under the key that made it.  It shows that
    the laws of [JWTLib] can be met, and it lets the token code run on
    concrete inputs. *)

Module SymbolicJWT.

Fixpoint pos_to_bits (p : positive) : string :=
  match p with
  | xH => ""
  | xO q => String "0" (pos_to_bits q)
  | xI q => String "1" (pos_to_bits q)
  end.

Fixpoint bits_to_pos (s : string) : option positive :=
  match s with
  | EmptyString => Some xH
  | String c r =>
      if Ascii.eqb c "0" then xO <$> bits_to_pos r
      else if Ascii.eqb c "1" then xI <$> bits_to_pos r
      else None
  end.

Definition supported (alg : string) : bool :=
  PyStr.contains ["HS256"; "HS384"; "HS512"] alg.

Definition serialise (p : payload) (key alg : string) : string :=
  pos_to_bits (encode (p, key, alg)).

Definition parse (t : string) : option (payload * string * string) :=
  bits_to_pos t ≫= decode.

Definition sym_encode (p : payload) (key alg : string) : option string :=
  if supported alg then Some (serialise p key alg) else None.

Definition sym_payload (t : string) : option payload :=
  (λ x, x.1.1) <$> parse t.

Definition sym_verify (t key : string) (algs : list string) : bool :=
  match parse t with
  | Some (_, k, a) => String.eqb k key && PyStr.contains algs a
  | None => false
  end.

(** Decimal digits only: enough of [int] for the examples. *)
Fixpoint digits_value (acc : Z) (s : string) : option Z :=
  match s with
  | EmptyString => Some acc
  | String c r =>
      let n := nat_of_ascii c in
      if ((48 <=? n)%nat && (n <=? 57)%nat)%bool
      then digits_value (10 * acc + Z.of_nat (n - 48)) r
      else None
  end.

Definition sym_int_of_str (s : string) : option Z :=
  match s with
  | EmptyString => None
  | _ => digits_value 0 s
  end.

Definition parse_serialise (p : payload) (key alg : string)
  : parse (serialise p key alg) = Some (p, key, alg).
Proof.
  unfold parse, serialise.
  assert (Hbits : ∀ q, bits_to_pos (pos_to_bits q) = Some q).
  { induction q as [q IH|q IH|]; simpl; rewrite ?IH; reflexivity. }
  rewrite Hbits. simpl. apply decode_encode.
Defined.

Global Instance lib : JWTLib.
Proof.
  refine {| jws_encode := sym_encode;
            jws_payload := sym_payload;
            jws_verify := sym_verify;
            jws_supported := supported;
            int_of_str := sym_int_of_str |}.
  - intros p k a Ha. unfold sym_encode. rewrite Ha. eauto.
  - intros p k a t. unfold sym_encode, sym_payload.
    destruct (supported a); [|discriminate].
    intros [= <-]. rewrite parse_serialise. reflexivity.
  - intros p k a t. unfold sym_encode, sym_verify.
    destruct (supported a); [|discriminate].
    intros [= <-]. rewrite parse_serialise.
    unfold PyStr.contains. simpl. rewrite !String.eqb_refl. reflexivity.
Defined.

End SymbolicJWT.

(** ** Concrete data for running the code *)

Module Examples.

(** A clock that gives second 1000 at the first reading and advances by
    one second per reading. *)
Definition clock0 (i : nat) : Z := 1000 + Z.of_nat i.

(** A server whose local time is UTC. *)
Definition utc (t : Z) : Z := 0.

(** A gate with an allow-list of its own. *)
Definition gate_health_login : JWTAuthMiddleware :=
  JWTAuthMiddleware_init
    (Some ["/health"; "/api/v1/auth/jwt/login"]).

(** The gate as [JWTAuthMiddleware(app)] builds it. *)
Definition gate_default : JWTAuthMiddleware := JWTAuthMiddleware_init None.

Definition admin : Roles.CurrentUser :=
  {| Roles.cu_id := "admin-0"; Roles.is_superuser := true;
     Roles.has_role := λ _, false |}.

(** One account, one active role, no assignment. *)
Definition db0 : Roles.DB :=
  {| Roles.users := [ {| Roles.u_id := "u1"; Roles.u_email := "u1@example.com" |} ];
     Roles.roles := [ {| Roles.role_id := 1; Roles.role_name := "editor";
                         Roles.role_description := None;
                         Roles.role_permissions := Some ["read"; "write"];
                         Roles.role_is_active := true |} ];
     Roles.user_roles := [];
     Roles.roles_id_seq := 1;
     Roles.user_roles_id_seq := 0;
     Roles.db_now := 5000 |}.

(** Tokens minted at the first two readings of [clock0] under the default
    settings: an access token with the default lifetime, a refresh token,
    and an access token issued with [expires_delta = timedelta(minutes=-1)]. *)
Definition access_token_u1 : string :=
  Eval vm_compute in
    match create_access_token clock0 default_settings "u1" None 0%nat with
    | (Return t, _) => t
    | _ => ""
    end.

Definition refresh_token_u1 : string :=
  Eval vm_compute in
    match create_refresh_token clock0 default_settings "u1" 0%nat with
    | (Return t, _) => t
    | _ => ""
    end.

Definition expired_token_u1 : string :=
  Eval vm_compute in
    match create_access_token clock0 default_settings "u1" (Some (-60))
            0%nat with
    | (Return t, _) => t
    | _ => ""
    end.


Definition protected_request (auth : option string) : Request :=
  {| url_path := "/api/v1/roles/"; authorization := auth |}.

(** The assignment row of "u1" to role 1, and [db0] with that row. *)
Definition row_u1_r1 (active : bool) : Roles.UserRoleRow :=
  {| Roles.ur_id := 1; Roles.ur_user_id := "u1"; Roles.ur_role_id := 1;
     Roles.ur_assigned_at := 5000; Roles.ur_assigned_by := Some "admin-0";
     Roles.ur_is_active := active |}.

Definition db0_assigned (active : bool) : Roles.DB :=
  {| Roles.users := Roles.users db0; Roles.roles := Roles.roles db0;
     Roles.user_roles := [row_u1_r1 active];
     Roles.roles_id_seq := 1;
     Roles.user_roles_id_seq := 1;
     Roles.db_now := 5000 |}.

(** Settings whose algorithm the library does not know. *)
Definition settings_unsupported : SecuritySettings :=
  {| secret_key := secret_key default_settings;
     algorithm := "XS256";
     access_token_expire_minutes := 60;
     refresh_token_expire_days := 7;
     users_secret := users_secret default_settings |}.

(** A server five hours west of UTC. *)
Definition utc_minus_5 (t : Z) : Z := -18000.

(** [request.state] as the gate leaves it for a request that carries
    [access_token_u1], read from the third reading of [clock0] on. *)
Definition forwarded_state : RequestState :=
  Eval vm_compute in
    match dispatch clock0 utc default_settings gate_health_login
            (protected_request (Some ("Bearer " ++ access_token_u1)))
            2%nat with
    | (Return (CallNext st), _) => st
    | _ => empty_state
    end.

(** A caller without the permission to change roles. *)
Definition visitor : Roles.CurrentUser :=
  {| Roles.cu_id := "u1"; Roles.is_superuser := false;
     Roles.has_role := λ _, false |}.

(** [db0] with a second role, "admin". *)
Definition role_admin : Roles.RoleRow :=
  {| Roles.role_id := 2; Roles.role_name := "admin";
     Roles.role_description := Some "Administrators";
     Roles.role_permissions := Some ["manage_users"];
     Roles.role_is_active := true |}.

Definition db_two_roles : Roles.DB :=
  {| Roles.users := Roles.users db0;
     Roles.roles := Roles.roles db0 ++ [role_admin];
     Roles.user_roles := [];
     Roles.roles_id_seq := 2;
     Roles.user_roles_id_seq := 0;
     Roles.db_now := 5000 |}.

Definition assign_u1_r1 : Roles.UserRoleAssignment :=
  {| Roles.user_id := "u1"; Roles.assignment_role_id := 1;
     Roles.assigned_by := None |}.

End Examples.

(** * Properties *)

(** Unfolds the monad of computations down to pairs. *)
Ltac py_unfold :=
  unfold mbind, Py_bind, py_bind, mret, Py_ret, py_ret, py_raise, py_lift,
    try_except in *.

(** A [try] whose handlers catch every exception and return normally never
    raises. *)
Lemma try_except_total {S A} (body : Py S A) (handler : exn → option (Py S A)) :
  (∀ e, ∃ v, handler e = Some (mret v)) →
  ∀ s, ∃ r s', try_except body handler s = (Return r, s').
Proof.
  intros Hh s. unfold try_except.
  destruct (body s) as [[a|e] s']; [eauto|].
  destruct (Hh e) as [v ->]. py_unfold. eauto.
Qed.

Section TokenProperties.

Context `{lib : JWTLib}.
Variable clock : nat → Z.
Variable utcoffset : Z → Z.
Variable settings : SecuritySettings.


(** *** The library's claim validation *)

Lemma _validate_exp_Return p now i i' :
  _validate_exp p now i = (Return (), i') →
  i' = i ∧ ∀ e, p !! "exp" = Some (JInt e) → now < e.
Proof.
  unfold _validate_exp. destruct (p !! "exp") as [v|] eqn:Hv.
  - py_unfold. destruct (py_int v) as [z|er] eqn:Hz.
    + destruct (z <=? now) eqn:Hle; [discriminate|].
      intros [= <-]. split; [done|]. intros e [= ->]. simpl in Hz.
      injection Hz as <-. lia.
    + destruct er; discriminate.
  - py_unfold. intros [= <-]. split; [done|]. intros e [=].
Qed.

Lemma _validate_iat_state p now i r i' :
  _validate_iat p now i = (r, i') → i' = i.
Proof.
  unfold _validate_iat. destruct (p !! "iat") as [v|].
  - py_unfold. destruct (py_int v) as [z|er].
    + destruct (now <? z); by intros [= _ <-].
    + destruct er; by intros [= _ <-].
  - py_unfold. by intros [= _ <-].
Qed.

Lemma _validate_nbf_state p now i r i' :
  _validate_nbf p now i = (r, i') → i' = i.
Proof.
  unfold _validate_nbf. destruct (p !! "nbf") as [v|].
  - py_unfold. destruct (py_int v) as [z|er].
    + destruct (now <? z); by intros [= _ <-].
    + destruct er; by intros [= _ <-].
  - py_unfold. by intros [= _ <-].
Qed.

Lemma _validate_claims_Return p i i' :
  _validate_claims clock p i = (Return (), i') →
  i' = S i ∧ ∀ e, p !! "exp" = Some (JInt e) → clock i < e.
Proof.
  unfold _validate_claims, utcnow. py_unfold.
  destruct (_validate_iat p (clock i) (S i)) as [[[]|e1] i1] eqn:H1;
    [|discriminate].
  apply _validate_iat_state in H1 as ->.
  destruct (_validate_nbf p (clock i) (S i)) as [[[]|e2] i2] eqn:H2;
    [|discriminate].
  apply _validate_nbf_state in H2 as ->.
  destruct (_validate_exp p (clock i) (S i)) as [[[]|e3] i3] eqn:H3;
    [|discriminate].
  apply _validate_exp_Return in H3 as [-> Hexp].
  unfold _validate_aud. destruct (truthy (p !! "aud")); [discriminate|].
  intros [= <-]. done.
Qed.

(** A successful [jwt.decode] returns the claim set of the token, whose
    signature is valid under the key and which has not expired. *)
Lemma jwt_decode_Return token key algs i p i' :
  jwt_decode clock token key algs i = (Return p, i') →
  jws_payload token = Some p ∧ jws_verify token key algs = true
  ∧ i' = S i ∧ ∀ e, p !! "exp" = Some (JInt e) → clock i < e.
Proof.
  unfold jwt_decode. destruct (jws_payload token) as [q|]; [|discriminate].
  destruct (jws_verify token key algs); [|discriminate].
  py_unfold.
  destruct (_validate_claims clock q i) as [[[]|e] i1] eqn:Hc; [|discriminate].
  apply _validate_claims_Return in Hc as [-> Hexp].
  intros [= <- <-]. done.
Qed.

(** *** The verifiers *)

Lemma verify_handlers_total e :
  ∃ v, verify_handlers e = Some (mret v).
Proof.
  exists None. unfold verify_handlers.
  destruct e; simpl; reflexivity.
Qed.

Lemma verify_access_token_total token i :
  ∃ r i', verify_access_token clock settings token i = (Return r, i').
Proof. apply try_except_total, verify_handlers_total. Qed.

Lemma verify_refresh_token_total token i :
  ∃ r i', verify_refresh_token clock settings token i = (Return r, i').
Proof. apply try_except_total, verify_handlers_total. Qed.

(** What a verifier accepts, stated once for both kinds. *)
Lemma verify_Some_inv (key kind : string) token i p i' :
  try_except
    (payload ← jwt_decode clock token key [algorithm settings];
     if bool_decide (payload !! "type" ≠ Some (JStr kind))
     then mret None else mret (Some payload))
    verify_handlers i = (Return (Some p), i') →
  jws_payload token = Some p
  ∧ jws_verify token key [algorithm settings] = true
  ∧ p !! "type" = Some (JStr kind)
  ∧ (∀ e, p !! "exp" = Some (JInt e) → clock i < e)
  ∧ i' = S i.
Proof.
  py_unfold.
  destruct (jwt_decode clock token key [algorithm settings] i)
    as [[q|e] i1] eqn:Hd.
  - apply jwt_decode_Return in Hd as (Hp & Hs & -> & Hexp).
    case_bool_decide as Hty; [discriminate|].
    intros [= <- <-]. done.
  - destruct (verify_handlers_total e) as [v Hv].
    unfold verify_handlers in *. destruct e; simpl in *; discriminate.
Qed.

Lemma verify_access_token_Some token i p i' :
  verify_access_token clock settings token i = (Return (Some p), i') →
  jws_payload token = Some p
  ∧ jws_verify token (secret_key settings) [algorithm settings] = true
  ∧ p !! "type" = Some (JStr "access")
  ∧ (∀ e, p !! "exp" = Some (JInt e) → clock i < e)
  ∧ i' = S i.
Proof. apply verify_Some_inv. Qed.

Lemma verify_refresh_token_Some token i p i' :
  verify_refresh_token clock settings token i = (Return (Some p), i') →
  jws_payload token = Some p
  ∧ jws_verify token (users_secret settings) [algorithm settings] = true
  ∧ p !! "type" = Some (JStr "refresh")
  ∧ (∀ e, p !! "exp" = Some (JInt e) → clock i < e)
  ∧ i' = S i.
Proof. apply verify_Some_inv. Qed.

(** A token whose claim set carries an integer [exp] that is not in the
    future is never accepted. *)
Lemma verify_access_token_expired token p e i :
  jws_payload token = Some p → p !! "exp" = Some (JInt e) → e ≤ clock i →
  ∃ i', verify_access_token clock settings token i = (Return None, i').
Proof.
  intros Hp He Hle.
  destruct (verify_access_token_total token i) as ([q|] & i' & Hv); [|eauto].
  apply verify_access_token_Some in Hv as (Hq & _ & _ & Hexp & _).
  rewrite Hp in Hq. injection Hq as <-. specialize (Hexp e He). lia.
Qed.

(** *** Issuing *)

Lemma create_access_token_default subject i :
  jws_supported (algorithm settings) = true →
  ∃ t,
    create_access_token clock settings subject None i = (Return t, S (S i))
    ∧ jws_encode
        (<["exp" := JInt (clock i + 60 * access_token_expire_minutes settings)]>
           (<["sub" := JStr subject]> (<["type" := JStr "access"]>
              (<["iat" := JInt (clock (S i))]> ∅))))
        (secret_key settings) (algorithm settings) = Some t.
Proof.
  intros Hsup.
  set (p := <["exp" := _]> _).
  destruct (jws_encode_supported p (secret_key settings) _ Hsup) as [t Ht].
  exists t. split; [|exact Ht].
  unfold create_access_token, jwt_encode, utcnow.
  py_unfold. fold p. rewrite Ht. reflexivity.
Qed.

Lemma create_refresh_token_Return subject i t i' :
  create_refresh_token clock settings subject i = (Return t, i') →
  jws_encode
    (<["exp" := JInt (clock i + 86400 * refresh_token_expire_days settings)]>
       (<["sub" := JStr subject]> (<["type" := JStr "refresh"]>
          (<["iat" := JInt (clock (S i))]> ∅))))
    (users_secret settings) (algorithm settings) = Some t.
Proof.
  unfold create_refresh_token, jwt_encode,
    utcnow.
  py_unfold.
  match goal with |- context [jws_encode ?p ?k ?a] =>
    destruct (jws_encode p k a) as [t'|] end; [|discriminate].
  by intros [= -> _].
Qed.

Lemma create_access_token_Return subject delta i t i' :
  create_access_token clock settings subject delta i = (Return t, i') →
  ∃ e iat,
    jws_encode
      (<["exp" := JInt e]> (<["sub" := JStr subject]>
         (<["type" := JStr "access"]> (<["iat" := JInt iat]> ∅))))
      (secret_key settings) (algorithm settings) = Some t.
Proof.
  unfold create_access_token, jwt_encode,
    utcnow.
  py_unfold.
  destruct delta as [d|]; [destruct (negb (d =? 0))|];
    match goal with |- context [jws_encode ?p ?k ?a] =>
      destruct (jws_encode p k a) as [t'|] eqn:Ht end;
    try discriminate; intros [= -> _]; eauto.
Qed.

(** *** The expiry queries *)

Lemma get_token_expiration_total token i :
  ∃ r, get_token_expiration utcoffset token i = (Return r, i).
Proof.
  unfold get_token_expiration,
    jwt_decode_unverified, fromtimestamp.
  py_unfold.
  destruct (jws_payload token) as [p|]; [|eauto].
  destruct (truthy (p !! "exp")); [|eauto].
  destruct (p !! "exp") as [[| |z|]|]; eauto;
    destruct (_ && _); eauto.
Qed.

(** Without a decodable claim set or without an [exp] claim there is no
    expiry to report. *)
Lemma get_token_expiration_None token i :
  (∀ p, jws_payload token = Some p → p !! "exp" = None) →
  get_token_expiration utcoffset token i = (Return None, i).
Proof.
  intros H.
  unfold get_token_expiration,
    jwt_decode_unverified.
  py_unfold.
  destruct (jws_payload token) as [p|]; [|reflexivity].
  rewrite (H p eq_refl). reflexivity.
Qed.

(** The expiry that is reported is the [exp] claim of the claim set, read
    without any signature check. *)
Lemma get_token_expiration_exp token p e i :
  jws_payload token = Some p → p !! "exp" = Some (JInt e) → e ≠ 0 →
  datetime_min ≤ e + utcoffset e ≤ datetime_max →
  get_token_expiration utcoffset token i = (Return (Some (e + utcoffset e)), i).
Proof.
  intros Hp He Hnz [Hlo Hhi].
  unfold get_token_expiration,
    jwt_decode_unverified, fromtimestamp.
  py_unfold. rewrite Hp, He. simpl.
  destruct (e =? 0) eqn:E; [lia|]. simpl.
  destruct (datetime_min <=? e + utcoffset e) eqn:E1; [|lia].
  destruct (e + utcoffset e <=? datetime_max) eqn:E2; [|lia].
  reflexivity.
Qed.

Lemma is_token_expired_total token i :
  ∃ b i', is_token_expired clock utcoffset token i = (Return b, i').
Proof. apply try_except_total. intros e. by exists true. Qed.

(** C10.  The expiry check is total and fails closed: for every token
    string [is_token_expired] returns a boolean and never raises; it
    returns [True] when the token has no decodable claim set or its claim
    set has no [exp]; and [verify_access_token] returns a payload or
    [None] for every token string and never raises. *)
Theorem expiry_check_total_and_fail_closed token i :
  (∃ b i', is_token_expired clock utcoffset token i = (Return b, i'))
  ∧ ((∀ p, jws_payload token = Some p → p !! "exp" = None) →
     is_token_expired clock utcoffset token i = (Return true, i))
  ∧ (∃ r i', verify_access_token clock settings token i = (Return r, i')).
Proof.
  split; [apply is_token_expired_total|].
  split; [|apply verify_access_token_total].
  intros H. unfold is_token_expired. py_unfold.
  rewrite (get_token_expiration_None token i H). reflexivity.
Qed.

(** C8.  Issue-then-verify round trip: when the algorithm of the settings
    is supported and the verification reads the clock before the expiry of
    the token just issued, creating an access token for a subject and
    verifying it returns the payload, whose [sub] is the subject and whose
    [type] is "access". *)
Theorem issue_then_verify_access_token subject i :
  jws_supported (algorithm settings) = true →
  clock (S i) ≤ clock (S (S i)) →
  clock (S (S i)) < clock i + 60 * access_token_expire_minutes settings →
  ∃ t p,
    create_access_token clock settings subject None i = (Return t, S (S i))
    ∧ verify_access_token clock settings t (S (S i))
      = (Return (Some p), S (S (S i)))
    ∧ p !! "sub" = Some (JStr subject)
    ∧ p !! "type" = Some (JStr "access").
Proof.
  intros Hsup Hiat Hexp.
  destruct (create_access_token_default subject i Hsup) as (t & Hc & He).
  set (p := <["exp" := _]> _) in He.
  exists t, p. split; [exact Hc|].
  assert (Hiatp : p !! "iat" = Some (JInt (clock (S i)))) by reflexivity.
  assert (Hnbf : p !! "nbf" = None) by reflexivity.
  assert (Hexpp : p !! "exp"
    = Some (JInt (clock i + 60 * access_token_expire_minutes settings)))
    by reflexivity.
  assert (Haud : p !! "aud" = None) by reflexivity.
  assert (Hty : p !! "type" = Some (JStr "access")) by reflexivity.
  split; [|split; [reflexivity|exact Hty]].
  unfold verify_access_token, jwt_decode.
  rewrite (jws_payload_encode _ _ _ _ He), (jws_verify_encode _ _ _ _ He).
  unfold _validate_claims, _validate_iat, _validate_nbf, _validate_exp,
    _validate_aud, utcnow.
  rewrite Hiatp, Hnbf, Hexpp, Haud. py_unfold. simpl.
  destruct (clock (S (S i)) <? clock (S i)) eqn:E1; [lia|].
  destruct (clock i + 60 * access_token_expire_minutes settings
            <=? clock (S (S i))) eqn:E2; [lia|].
  rewrite Hty. reflexivity.
Qed.

(** C6.  The two kinds of token are separate: a token minted by
    [create_refresh_token] is never accepted by [verify_access_token], a
    token minted by [create_access_token] is never accepted by
    [verify_refresh_token], and whatever either verifier accepts has a
    valid signature under that verifier's own secret and a [type] claim of
    that verifier's own kind. *)
Theorem token_kinds_are_separate subject delta i ta ia tr ir :
  create_access_token clock settings subject delta i = (Return ta, ia) →
  create_refresh_token clock settings subject i = (Return tr, ir) →
  (∀ j, ∃ j', verify_access_token clock settings tr j = (Return None, j'))
  ∧ (∀ j, ∃ j', verify_refresh_token clock settings ta j = (Return None, j'))
  ∧ (∀ token j p j',
       verify_access_token clock settings token j = (Return (Some p), j') →
       jws_payload token = Some p
       ∧ jws_verify token (secret_key settings) [algorithm settings] = true
       ∧ p !! "type" = Some (JStr "access"))
  ∧ (∀ token j p j',
       verify_refresh_token clock settings token j = (Return (Some p), j') →
       jws_payload token = Some p
       ∧ jws_verify token (users_secret settings) [algorithm settings] = true
       ∧ p !! "type" = Some (JStr "refresh")).
Proof.
  intros Ha Hr.
  apply create_access_token_Return in Ha as (e & iat & Ha).
  apply create_refresh_token_Return in Hr.
  apply jws_payload_encode in Ha, Hr.
  split; [|split; [|split]].
  - intros j.
    destruct (verify_access_token_total tr j)
      as ([q|] & j' & Hv); [|eauto].
    apply verify_access_token_Some in Hv as (Hq & _ & Hty & _).
    rewrite Hr in Hq. injection Hq as <-. discriminate Hty.
  - intros j.
    destruct (verify_refresh_token_total ta j)
      as ([q|] & j' & Hv); [|eauto].
    apply verify_refresh_token_Some in Hv as (Hq & _ & Hty & _).
    rewrite Ha in Hq. injection Hq as <-. discriminate Hty.
  - intros token j p j' Hv.
    by apply verify_access_token_Some in Hv as (? & ? & ? & _).
  - intros token j p j' Hv.
    by apply verify_refresh_token_Some in Hv as (? & ? & ? & _).
Qed.


End TokenProperties.

Section GateProperties.

Context `{lib : JWTLib}.
Variable clock : nat → Z.
Variable utcoffset : Z → Z.
Variable settings : SecuritySettings.

(** Every answer of [handle_token_error] has status 401 and the body
    [{"success": false, "message": ..., "errors": [error_type]}]. *)
Lemma handle_token_error_shape error_type message :
  ∃ msg,
    handle_token_error error_type message
    = {| content := {| success := false; message := msg; data := None;
                       errors := Some [error_type]; meta := None |};
         status_code := 401 |}.
Proof.
  unfold handle_token_error, create_error_response, HTTP_401_UNAUTHORIZED.
  repeat match goal with |- context [if ?b then _ else _] => destruct b end;
    eexists; reflexivity.
Qed.

Lemma _validate_token_total token i :
  ∃ b i', _validate_token clock settings token i = (Return b, i').
Proof. apply try_except_total. intros e. by exists false. Qed.

Lemma _validate_token_rejects token i i' :
  verify_access_token clock settings token i = (Return None, i') →
  _validate_token clock settings token i = (Return false, i').
Proof. intros H. unfold _validate_token. py_unfold. rewrite H. reflexivity. Qed.

Lemma validate_token_expiration_total token i :
  ∃ b i', validate_token_expiration clock utcoffset token i = (Return b, i').
Proof. apply try_except_total. intros e. by exists false. Qed.

(** A request on a path that is not skipped and that carries no
    [Authorization] header is answered with the "missing" error and is not
    handed to [call_next]. *)
Lemma dispatch_missing_header self request i :
  _should_skip_auth self (url_path request) = false →
  authorization request = None →
  dispatch clock utcoffset settings self request i
  = (Return (Respond (handle_token_error "missing" None)), i).
Proof.
  intros Hskip Hauth. unfold dispatch, _extract_token.
  rewrite Hskip, Hauth. reflexivity.
Qed.

(** A header that is present but does not split into a "bearer" scheme and
    a token yields no token. *)
Lemma _extract_token_malformed request a :
  authorization request = Some a →
  (∀ scheme token,
     PyStr.split_once " " a = [scheme; token] →
     PyStr.lower scheme ≠ "bearer") →
  _extract_token request = None.
Proof.
  intros Hauth Hbad. unfold _extract_token. rewrite Hauth.
  destruct (String.eqb a ""); [reflexivity|].
  destruct (PyStr.split_once " " a) as [|scheme [|token [|x l]]] eqn:Hs;
    try reflexivity.
  specialize (Hbad scheme token eq_refl).
  destruct (String.eqb (PyStr.lower scheme) "bearer") eqn:E; [|reflexivity].
  apply String.eqb_eq in E. contradiction.
Qed.

(** A token that the verifier does not accept is answered with the
    "invalid" error. *)
Lemma dispatch_unverified_token self request token i i' :
  _should_skip_auth self (url_path request) = false →
  _extract_token request = Some token → token ≠ "" →
  verify_access_token clock settings token i = (Return None, i') →
  dispatch clock utcoffset settings self request i
  = (Return (Respond (handle_token_error "invalid" None)), i').
Proof.
  intros Hskip Htok Hne Hv. unfold dispatch. rewrite Hskip, Htok.
  destruct (String.eqb token "") eqn:E; [apply String.eqb_eq in E; done|].
  py_unfold. rewrite (_validate_token_rejects token i i' Hv). reflexivity.
Qed.

(** The only answers the gate gives itself are the "missing", "invalid"
    and "expired" errors. *)
Lemma dispatch_Respond_inv self request i r i' :
  dispatch clock utcoffset settings self request i = (Return (Respond r), i') →
  ∃ code, code ∈ ["missing"; "invalid"; "expired"]
          ∧ r = handle_token_error code None.
Proof.
  unfold dispatch.
  destruct (_should_skip_auth self (url_path request)); [discriminate|].
  destruct (_extract_token request) as [token|].
  - destruct (String.eqb token "").
    + intros [= <- _]. exists "missing". split; [set_solver|done].
    + py_unfold.
      destruct (_validate_token_total token i) as (b & i1 & ->).
      destruct b; simpl.
      * destruct (validate_token_expiration_total token i1) as (b2 & i2 & ->).
        destruct b2; simpl.
        -- destruct (verify_access_token_total clock settings token i2)
             as ([p|] & i3 & ->); [|discriminate].
           case_bool_decide; discriminate.
        -- intros [= <- _]. exists "expired". split; [set_solver|done].
      * intros [= <- _]. exists "invalid". split; [set_solver|done].
  - intros [= <- _]. exists "missing". split; [set_solver|done].
Qed.

(** With the default allow-list every path that begins with a slash is
    skipped: the entry "/" is a prefix of all of them. *)
Lemma default_gate_skips_every_path path :
  PyStr.startswith path "/" = true →
  _should_skip_auth (JWTAuthMiddleware_init None) path = true.
Proof.
  intros H. unfold _should_skip_auth.
  destruct (PyStr.contains _ path); [reflexivity|].
  simpl. rewrite H. reflexivity.
Qed.

(** C1, at the input where the code departs from it.  The gate built with
    the default allow-list matches the role endpoint "/api/v1/roles/"
    against the allow-listed prefix "/" and hands a request for it that
    carries no [Authorization] header to the downstream handler, with no
    "missing" error. *)
Theorem default_gate_forwards_role_endpoint_without_token i :
  _should_skip_auth (JWTAuthMiddleware_init None) "/api/v1/roles/" = true
  ∧ dispatch clock utcoffset settings (JWTAuthMiddleware_init None)
      {| url_path := "/api/v1/roles/"; authorization := None |} i
    = (Return (CallNext empty_state), i).
Proof. split; reflexivity. Qed.

(** C7, as the code has it.  A request on a path that is not skipped whose
    [Authorization] header is present but is not a "bearer" scheme followed
    by a token is answered by the gate with status 401 and the body
    [{"success": false, "message": ..., "errors": [code]}]; and for every
    answer the gate gives itself the status, the body and the code are of
    this form, with [code] among "missing", "malformed", "invalid" and
    "expired". *)
Theorem gate_rejects_malformed_header self request a i :
  _should_skip_auth self (url_path request) = false →
  authorization request = Some a →
  a ≠ "" →
  (∀ scheme token,
     PyStr.split_once " " a = [scheme; token] →
     PyStr.lower scheme ≠ "bearer") →
  (∃ msg code,
     dispatch clock utcoffset settings self request i
     = (Return (Respond
          {| content := {| success := false; message := msg; data := None;
                           errors := Some [code]; meta := None |};
             status_code := 401 |}), i)
     ∧ code ∈ ["missing"; "malformed"; "invalid"; "expired"])
  ∧ (∀ request' j r j',
       dispatch clock utcoffset settings self request' j
       = (Return (Respond r), j') →
       ∃ msg code,
         r = {| content := {| success := false; message := msg; data := None;
                              errors := Some [code]; meta := None |};
                status_code := 401 |}
         ∧ code ∈ ["missing"; "malformed"; "invalid"; "expired"]).
Proof.
  intros Hskip Hauth Hne Hbad. split.
  - destruct (handle_token_error_shape "missing" None) as [msg Hmsg].
    exists msg, "missing". split; [|set_solver].
    unfold dispatch.
    rewrite Hskip, (_extract_token_malformed request a Hauth Hbad), <- Hmsg.
    reflexivity.
  - intros request' j r j' Hd.
    apply dispatch_Respond_inv in Hd as (code & Hin & ->).
    destruct (handle_token_error_shape code None) as [msg Hmsg].
    exists msg, code. split; [exact Hmsg|].
    rewrite !elem_of_cons. rewrite !elem_of_cons in Hin.
    destruct Hin as [->|[->|[->|Hin]]]; auto.
Qed.

(** An access token that is past its expiry is answered with the "invalid"
    error, whatever its signature and kind: the verifier returns [None]
    for it, and the gate asks the verifier first. *)
Lemma dispatch_expired_token self request token p e i :
  _should_skip_auth self (url_path request) = false →
  _extract_token request = Some token → token ≠ "" →
  jws_payload token = Some p → p !! "exp" = Some (JInt e) → e ≤ clock i →
  ∃ i', dispatch clock utcoffset settings self request i
        = (Return (Respond (handle_token_error "invalid" None)), i').
Proof.
  intros Hskip Htok Hne Hp He Hle.
  destruct (verify_access_token_expired clock settings token p e i Hp He Hle)
    as [i' Hv].
  exists i'. by apply dispatch_unverified_token with token.
Qed.

End GateProperties.

(** ** The token code on concrete inputs *)

Section TokenScenarios.

Import Examples.

Local Abbreviation cfg := default_settings.

(** C2, at the input where the code departs from it.  The access token
    issued with a lifetime of minus one minute has a valid signature under
    the access secret and the kind "access"; the library reports it with
    [ExpiredSignatureError], [verify_access_token] returns [None] for it
    as for any invalid token, and the gate answers the request that
    carries it with the "invalid" error, not with the "expired" one. *)
Theorem expired_access_token_answered_invalid :
  create_access_token clock0 cfg "u1" (Some (-60)) 0%nat
  = (Return expired_token_u1, 2%nat)
  ∧ jws_verify expired_token_u1 (secret_key cfg) [algorithm cfg] = true
  ∧ jwt_decode clock0 expired_token_u1 (secret_key cfg) [algorithm cfg] 2%nat
    = (Raise ExpiredSignatureError, 3%nat)
  ∧ verify_access_token clock0 cfg expired_token_u1 2%nat
    = (Return None, 3%nat)
  ∧ dispatch clock0 utc cfg gate_health_login
      (protected_request (Some ("Bearer " ++ expired_token_u1))) 2%nat
    = (Return (Respond (handle_token_error "invalid" None)), 3%nat)
  ∧ handle_token_error "invalid" None ≠ handle_token_error "expired" None.
Proof.
  repeat split; try (vm_compute; reflexivity).
  vm_compute. discriminate.
Qed.


(** A header with the scheme "Basic" on a protected path is answered with
    the code "missing"; the code "token_malformed" does not occur. *)
Lemma basic_scheme_answered_missing :
  ∃ r,
    dispatch clock0 utc cfg gate_health_login
      (protected_request (Some "Basic dXNlcjpwYXNz")) 0%nat
    = (Return (Respond r), 0%nat)
    ∧ status_code r = 401
    ∧ errors (content r) = Some ["missing"]
    ∧ errors (content r) ≠ Some ["token_malformed"].
Proof.
  eexists. split; [vm_compute; reflexivity|].
  repeat split. vm_compute. discriminate.
Qed.

Lemma expiry_check_total_and_fail_closed_witness :
  is_token_expired clock0 utc "not-a-token" 0%nat = (Return true, 0%nat).
Proof.
  apply (expiry_check_total_and_fail_closed clock0 utc cfg "not-a-token" 0%nat).
  intros p Hp. vm_compute in Hp. discriminate.
Defined.

Lemma issue_then_verify_access_token_witness :
  ∃ t p,
    create_access_token clock0 cfg "u1" None 0%nat = (Return t, 2%nat)
    ∧ verify_access_token clock0 cfg t 2%nat = (Return (Some p), 3%nat)
    ∧ p !! "sub" = Some (JStr "u1")
    ∧ p !! "type" = Some (JStr "access").
Proof.
  apply (issue_then_verify_access_token clock0 cfg "u1" 0%nat).
  - reflexivity.
  - vm_compute. discriminate.
  - vm_compute. reflexivity.
Defined.

Lemma token_kinds_are_separate_witness :
  ∃ j', verify_access_token clock0 cfg refresh_token_u1 5%nat
        = (Return None, j').
Proof.
  refine (proj1 (token_kinds_are_separate clock0 cfg "u1" None 0%nat
                   access_token_u1 2%nat refresh_token_u1 2%nat _ _) 5%nat).
  - vm_compute. reflexivity.
  - vm_compute. reflexivity.
Defined.


Lemma gate_rejects_malformed_header_witness :
  ∃ msg code,
    dispatch clock0 utc cfg gate_health_login
      (protected_request (Some "Basic dXNlcjpwYXNz")) 0%nat
    = (Return (Respond
         {| content := {| success := false; message := msg; data := None;
                          errors := Some [code]; meta := None |};
            status_code := 401 |}), 0%nat)
    ∧ code ∈ ["missing"; "malformed"; "invalid"; "expired"].
Proof.
  refine (proj1 (gate_rejects_malformed_header clock0 utc cfg gate_health_login
                   (protected_request (Some "Basic dXNlcjpwYXNz"))
                   "Basic dXNlcjpwYXNz" 0%nat _ _ _ _)).
  - vm_compute. reflexivity.
  - reflexivity.
  - discriminate.
  - intros scheme token H. vm_compute in H. injection H as <- <-.
    vm_compute. discriminate.
Defined.

End TokenScenarios.

(** ** Role registry and assignment ledger *)

Section KeyedRows.

Context {A K : Type} `{EqDecision K} (f : A → K).

Lemma filter_none (P : A → Prop) `{∀ a, Decision (P a)} (l : list A) :
  (∀ a, a ∈ l → ¬ P a) → filter P l = [].
Proof.
  induction l as [|a l IH]; intros Hn; [reflexivity|].
  rewrite filter_cons_False by (apply Hn; left).
  apply IH. intros b Hb. apply Hn. by right.
Qed.

(** Among rows with distinct keys, a selection that determines the key
    finds at most one row. *)
Lemma filter_unique (P : A → Prop) `{∀ a, Decision (P a)} (l : list A) r :
  NoDup (f <$> l) → r ∈ l → P r →
  (∀ a, a ∈ l → P a → f a = f r) →
  filter P l = [r].
Proof.
  induction l as [|a l IH]; intros Hnd Hr HP Hkey.
  - by apply elem_of_nil in Hr.
  - rewrite fmap_cons in Hnd. apply NoDup_cons in Hnd as [Hna Hnd].
    apply elem_of_cons in Hr as [->|Hr].
    + rewrite filter_cons_True by done. f_equal.
      apply filter_none. intros b Hb HPb. apply Hna.
      rewrite <- (Hkey b) by (by right || done).
      by apply list_elem_of_fmap_2.
    + rewrite filter_cons_False.
      * apply IH; auto. intros b Hb. apply Hkey. by right.
      * intros HPa. apply Hna. rewrite (Hkey a) by (by left || done).
        by apply list_elem_of_fmap_2.
Qed.

Lemma filter_key_absent (x : K) (l : list A) :
  x ∉ f <$> l → filter (λ a, f a = x) l = [].
Proof.
  intros Hx. apply filter_none. intros a Ha <-. apply Hx.
  by apply list_elem_of_fmap_2.
Qed.

Lemma filter_key_present (l : list A) r :
  NoDup (f <$> l) → r ∈ l → filter (λ a, f a = f r) l = [r].
Proof. intros Hnd Hr. apply filter_unique; auto. Qed.

Lemma NoDup_fmap_filter (P : A → Prop) `{∀ a, Decision (P a)} (l : list A) :
  NoDup (f <$> l) → NoDup (f <$> filter P l).
Proof.
  induction l as [|a l IH]; [done|].
  rewrite fmap_cons. intros [Hna Hnd]%NoDup_cons.
  rewrite filter_cons. destruct (decide (P a)); [|by apply IH].
  rewrite fmap_cons. apply NoDup_cons. split; [|by apply IH].
  intros (b & Hb & Hbin)%list_elem_of_fmap_1. apply Hna. rewrite Hb.
  apply list_elem_of_fmap_2. by apply list_elem_of_filter in Hbin as [_ ?].
Qed.

End KeyedRows.

Lemma existsb_false_iff {A} (g : A → bool) (l : list A) :
  existsb g l = false ↔ ∀ a, a ∈ l → g a = false.
Proof.
  induction l as [|a l IH]; simpl.
  - split; [|done]. intros _ a Ha. by apply elem_of_nil in Ha.
  - rewrite orb_false_iff, IH. split.
    + intros [Ha Hl] b Hb. apply elem_of_cons in Hb as [->|Hb]; auto.
    + intros Hall. split; [apply Hall; left|].
      intros b Hb. apply Hall. by right.
Qed.

Lemma existsb_true_elim {A} (g : A → bool) (l : list A) :
  existsb g l = true → ∃ a, a ∈ l ∧ g a = true.
Proof.
  intros (a & Ha & Hg)%existsb_exists. exists a.
  split; [by apply list_elem_of_In|done].
Qed.

Lemma existsb_true_intro {A} (g : A → bool) (l : list A) a :
  a ∈ l → g a = true → existsb g l = true.
Proof.
  intros Ha Hg. apply existsb_exists. exists a.
  split; [by apply list_elem_of_In|done].
Qed.

Section RoleProperties.

Import Roles.

Lemma authorised_guard cu :
  authorised cu →
  negb (is_superuser cu) && negb (has_role cu "admin") = false.
Proof. intros [->| ->]; simpl; [done|by rewrite andb_false_r]. Qed.

(** *** Validation of role names *)



(** *** Creating roles *)

Lemma create_role_existing rd cu db :
  db_wf db → authorised cu → name rd ∈ (role_name <$> roles db) →
  create_role rd cu db
  = (Raise (HTTPException 400
       ("Role with name '" ++ name rd ++ "' already exists")), db).
Proof.
  intros Hwf Hauth Hin. unfold create_role.
  rewrite (authorised_guard cu Hauth).
  apply list_elem_of_fmap_1 in Hin as (r & Hr & Hrin).
  unfold get_db. py_unfold. rewrite Hr.
  rewrite (filter_key_present role_name (roles db) r (wf_role_names db Hwf) Hrin).
  reflexivity.
Qed.

Lemma create_role_fresh rd cu db :
  db_wf db → authorised cu → name rd ∉ (role_name <$> roles db) →
  let row := {| role_id := roles_id_seq db + 1; role_name := name rd;
                role_description := description rd;
                role_permissions := permissions rd;
                role_is_active := is_active rd |} in
  create_role rd cu db
  = (Return {| response_success := true;
               response_message := "Role created successfully";
               response_data := Some row |},
     {| users := users db; roles := roles db ++ [row];
        user_roles := user_roles db;
        roles_id_seq := roles_id_seq db + 1;
        user_roles_id_seq := user_roles_id_seq db;
        db_now := db_now db |}).
Proof.
  intros Hwf Hauth Hnin row. unfold create_role.
  rewrite (authorised_guard cu Hauth).
  unfold get_db. py_unfold.
  rewrite (filter_key_absent role_name (name rd) (roles db) Hnin).
  unfold scalar_one_or_none, insert_role. py_unfold.
  assert (Hex : existsb (λ r, (role_id r =? roles_id_seq db + 1)
                   || String.eqb (role_name r) (name rd)) (roles db) = false).
  { apply existsb_false_iff. intros r Hr. apply orb_false_iff. split.
    - pose proof (wf_role_seq db Hwf r Hr). lia.
    - apply String.eqb_neq. intros Heq. apply Hnin. rewrite <- Heq.
      by apply list_elem_of_fmap_2. }
  simpl. rewrite Hex. reflexivity.
Qed.

(** What a successful [create_role] did. *)
Lemma create_role_Return rd cu db resp db1 :
  db_wf db → authorised cu →
  create_role rd cu db = (Return resp, db1) →
  (name rd ∉ (role_name <$> roles db))
  ∧ roles db1 = (roles db ++
      [ {| role_id := roles_id_seq db + 1; role_name := name rd;
           role_description := description rd;
           role_permissions := permissions rd;
           role_is_active := is_active rd |} ])%list
  ∧ users db1 = users db ∧ user_roles db1 = user_roles db
  ∧ roles_id_seq db1 = roles_id_seq db + 1
  ∧ user_roles_id_seq db1 = user_roles_id_seq db.
Proof.
  intros Hwf Hauth Hc.
  destruct (decide (name rd ∈ (role_name <$> roles db))) as [Hin|Hnin].
  - rewrite (create_role_existing rd cu db Hwf Hauth Hin) in Hc. discriminate.
  - rewrite (create_role_fresh rd cu db Hwf Hauth Hnin) in Hc.
    injection Hc as _ <-. simpl. done.
Qed.

(** [create_role] keeps the constraints of the schema. *)
Lemma create_role_wf rd cu db resp db1 :
  db_wf db → authorised cu →
  create_role rd cu db = (Return resp, db1) → db_wf db1.
Proof.
  intros Hwf Hauth Hc.
  destruct (create_role_Return rd cu db resp db1 Hwf Hauth Hc)
    as (Hnin & Hroles & Husers & Hur & Hseq & Hurseq).
  destruct Hwf as [W1 W2 W3 W4 W5 W6 W7 W8 W9].
  split; rewrite ?Hroles, ?Husers, ?Hur, ?Hseq, ?Hurseq; auto.
  - rewrite fmap_app. apply NoDup_app. split; [done|]. split.
    + intros x Hx. simpl. rewrite list_elem_of_singleton. intros ->.
      apply list_elem_of_fmap_1 in Hx as (r & Hr & Hrin).
      specialize (W4 r Hrin). lia.
    + simpl. apply NoDup_singleton.
  - rewrite fmap_app. apply NoDup_app. split; [done|]. split.
    + intros x Hx. simpl. rewrite list_elem_of_singleton. by intros ->.
    + simpl. apply NoDup_singleton.
  - intros r Hr. apply elem_of_app in Hr as [Hr|Hr].
    + specialize (W4 r Hr). lia.
    + apply list_elem_of_singleton in Hr as ->. simpl. lia.
  - intros r Hr. rewrite fmap_app. apply elem_of_app. left. by apply W9.
Qed.


(** *** Assigning and revoking *)

Lemma user_roles_pair_filter db asg row :
  db_wf db → row ∈ user_roles db →
  ur_user_id row = user_id asg → ur_role_id row = assignment_role_id asg →
  filter (λ r, ur_user_id r = user_id asg
               ∧ ur_role_id r = assignment_role_id asg
               ∧ ur_is_active r = true) (user_roles db)
  = if ur_is_active row then [row] else [].
Proof.
  intros Hwf Hrow Hu Hr. destruct (ur_is_active row) eqn:Hact.
  - apply (filter_unique (λ r, (ur_user_id r, ur_role_id r))); auto.
    + apply (wf_ur_pairs db Hwf).
    + intros a _ (Ha1 & Ha2 & _). simpl. congruence.
  - apply filter_none. intros a Ha (Ha1 & Ha2 & Ha3).
    assert (a = row) as ->; [|congruence].
    pose proof (filter_unique (λ r, (ur_user_id r, ur_role_id r))
      (λ r, ur_user_id r = user_id asg
            ∧ ur_role_id r = assignment_role_id asg) (user_roles db) row
      (wf_ur_pairs db Hwf) Hrow (conj Hu Hr)) as Hf.
    assert (Ha' : a ∈ filter (λ r, ur_user_id r = user_id asg
                    ∧ ur_role_id r = assignment_role_id asg) (user_roles db)).
    { apply list_elem_of_filter. done. }
    rewrite Hf in Ha'.
    + by apply list_elem_of_singleton in Ha'.
    + intros b _ [Hb1 Hb2]. simpl. congruence.
Qed.

(** The checks of [assign_role_to_user] up to the lookup of an existing
    assignment, for a caller that may assign, an existing account and an
    existing active role. *)
Lemma assign_role_to_user_checked asg cu db u role :
  db_wf db → authorised cu →
  u ∈ users db → u_id u = user_id asg →
  role ∈ roles db → role_id role = assignment_role_id asg →
  role_is_active role = true →
  assign_role_to_user asg cu db
  = (existing_assignment ← scalar_one_or_none
       (filter (λ r, ur_user_id r = user_id asg
                     ∧ ur_role_id r = assignment_role_id asg
                     ∧ ur_is_active r = true) (user_roles db));
     match existing_assignment with
     | Some _ =>
         py_raise (HTTPException HTTP_400_BAD_REQUEST
                     "User already has this role assigned")
     | None =>
         _ ← insert_user_role (user_id asg) (assignment_role_id asg)
               (Some (default (cu_id cu) (assigned_by asg))) true;
         mret {| response_success := true;
                 response_message :=
                   "Role '" ++ role_name role
                   ++ "' assigned to user successfully";
                 response_data := None |}
     end) db.
Proof.
  intros Hwf Hauth Hu Huid Hr Hrid Hact. unfold assign_role_to_user.
  rewrite (authorised_guard cu Hauth). unfold get_db. py_unfold.
  rewrite <- Huid, <- Hrid.
  rewrite (filter_key_present u_id (users db) u (wf_user_ids db Hwf) Hu).
  simpl.
  rewrite (filter_key_present role_id (roles db) role (wf_role_ids db Hwf) Hr).
  simpl. rewrite Hact. reflexivity.
Qed.

(** An active assignment for the pair: the "already assigned" error. *)
Lemma assign_role_to_user_active asg cu db u role row :
  db_wf db → authorised cu →
  u ∈ users db → u_id u = user_id asg →
  role ∈ roles db → role_id role = assignment_role_id asg →
  role_is_active role = true →
  row ∈ user_roles db →
  ur_user_id row = user_id asg → ur_role_id row = assignment_role_id asg →
  ur_is_active row = true →
  assign_role_to_user asg cu db
  = (Raise (HTTPException 400 "User already has this role assigned"), db).
Proof.
  intros Hwf Hauth Hu Huid Hr Hrid Hact Hrow Hru Hrr Hra.
  rewrite (assign_role_to_user_checked asg cu db u role) by done.
  py_unfold.
  rewrite (user_roles_pair_filter db asg row Hwf Hrow Hru Hrr), Hra.
  reflexivity.
Qed.

(** An inactive assignment for the pair: the handler inserts a second row
    for it, which [UNIQUE (user_id, role_id)] refuses; nothing is
    reactivated. *)
Lemma assign_role_to_user_inactive asg cu db u role row :
  db_wf db → authorised cu →
  u ∈ users db → u_id u = user_id asg →
  role ∈ roles db → role_id role = assignment_role_id asg →
  role_is_active role = true →
  row ∈ user_roles db →
  ur_user_id row = user_id asg → ur_role_id row = assignment_role_id asg →
  ur_is_active row = false →
  assign_role_to_user asg cu db = (Raise IntegrityError, db).
Proof.
  intros Hwf Hauth Hu Huid Hr Hrid Hact Hrow Hru Hrr Hra.
  rewrite (assign_role_to_user_checked asg cu db u role) by done.
  py_unfold.
  rewrite (user_roles_pair_filter db asg row Hwf Hrow Hru Hrr), Hra.
  simpl. unfold insert_user_role.
  rewrite (existsb_true_intro _ (user_roles db) row Hrow); [reflexivity|].
  simpl. rewrite Hru, Hrr, String.eqb_refl, Z.eqb_refl.
  by rewrite orb_true_r.
Qed.

(** [remove_role_from_user] keeps the row and clears its [is_active]. *)
Lemma remove_role_from_user_Return id cu db row :
  db_wf db → authorised cu → row ∈ user_roles db → ur_id row = id →
  ∃ resp db',
    remove_role_from_user id cu db = (Return resp, db')
    ∧ roles db' = roles db
    ∧ user_roles db'
      = map (λ r, if ur_id r =? id then
                    {| ur_id := ur_id r; ur_user_id := ur_user_id r;
                       ur_role_id := ur_role_id r;
                       ur_assigned_at := ur_assigned_at r;
                       ur_assigned_by := ur_assigned_by r;
                       ur_is_active := false |}
                  else r) (user_roles db).
Proof.
  intros Hwf Hauth Hrow <-. unfold remove_role_from_user.
  rewrite (authorised_guard cu Hauth). unfold get_db. py_unfold.
  rewrite (filter_key_present ur_id (user_roles db) row
             (wf_ur_ids db Hwf) Hrow).
  simpl. eauto.
Qed.

(** *** Deleting roles *)

(** [delete_role] is refused as long as any assignment row references the
    role, whether the row is active or not. *)
Lemma delete_role_referenced id cu db role row :
  db_wf db → authorised cu →
  role ∈ roles db → role_id role = id →
  row ∈ user_roles db → ur_role_id row = id →
  delete_role id cu db
  = (Raise (HTTPException 400
       "Cannot delete role that is assigned to users. Remove all assignments first."),
     db).
Proof.
  intros Hwf Hauth Hr <- Hrow Hrr. unfold delete_role.
  rewrite (authorised_guard cu Hauth). unfold get_db. py_unfold.
  rewrite (filter_key_present role_id (roles db) role (wf_role_ids db Hwf) Hr).
  simpl.
  assert (Hin : row ∈ filter (λ r, ur_role_id r = role_id role) (user_roles db)).
  { by apply list_elem_of_filter. }
  destruct (filter _ (user_roles db)) as [|x l]; [by apply elem_of_nil in Hin|].
  reflexivity.
Qed.

Lemma delete_role_unreferenced id cu db role :
  db_wf db → authorised cu →
  role ∈ roles db → role_id role = id →
  (∀ row, row ∈ user_roles db → ur_role_id row ≠ id) →
  ∃ resp db',
    delete_role id cu db = (Return resp, db')
    ∧ roles db' = filter (λ r, role_id r ≠ id) (roles db).
Proof.
  intros Hwf Hauth Hr <- Hnone. unfold delete_role.
  rewrite (authorised_guard cu Hauth). unfold get_db. py_unfold.
  rewrite (filter_key_present role_id (roles db) role (wf_role_ids db Hwf) Hr).
  simpl. rewrite (filter_none _ (user_roles db)) by (intros a Ha; by apply Hnone).
  simpl. eauto.
Qed.

(** *** The handlers keep the constraints of the schema *)

Lemma insert_user_role_wf u ro ab act db r db' :
  db_wf db → insert_user_role u ro ab act db = (r, db') → db_wf db'.
Proof.
  intros Hwf. unfold insert_user_role.
  destruct (existsb _ (user_roles db)) eqn:Hrows; simpl;
    [by intros [= _ <-]|].
  destruct (existsb _ (users db)) eqn:Huser; simpl; [|by intros [= _ <-]].
  destruct (existsb _ (roles db)) eqn:Hrole; simpl; [|by intros [= _ <-]].
  intros [= _ <-].
  pose proof (proj1 (existsb_false_iff _ _) Hrows) as Hfresh.
  apply existsb_true_elim in Huser as (u0 & Hu0 & Hu0id%String.eqb_eq).
  apply existsb_true_elim in Hrole as (r0 & Hr0 & Hr0id%Z.eqb_eq).
  destruct Hwf as [W1 W2 W3 W4 W5 W6 W7 W8 W9].
  split; simpl; auto.
  - rewrite fmap_app. apply NoDup_app. split; [done|]. split.
    + intros x (a & -> & Ha)%list_elem_of_fmap_1. simpl.
      rewrite list_elem_of_singleton. specialize (W7 a Ha). lia.
    + apply NoDup_singleton.
  - rewrite fmap_app. apply NoDup_app. split; [done|]. split.
    + intros x (a & -> & Ha)%list_elem_of_fmap_1. simpl.
      rewrite list_elem_of_singleton. intros [= Hau Har].
      specialize (Hfresh a Ha). apply orb_false_iff in Hfresh as [_ Hp].
      rewrite Hau, Har, String.eqb_refl, Z.eqb_refl in Hp. discriminate.
    + apply NoDup_singleton.
  - intros a [Ha| ->%list_elem_of_singleton]%elem_of_app; simpl.
    + specialize (W7 a Ha). lia.
    + lia.
  - intros a [Ha| ->%list_elem_of_singleton]%elem_of_app; simpl; auto.
    rewrite <- Hu0id. by apply list_elem_of_fmap_2.
  - intros a [Ha| ->%list_elem_of_singleton]%elem_of_app; simpl; auto.
    rewrite <- Hr0id. by apply list_elem_of_fmap_2.
Qed.

(** Whatever its outcome, [assign_role_to_user] leaves at most one row
    per pair of account and role. *)
Lemma assign_role_to_user_wf asg cu db r db' :
  db_wf db → assign_role_to_user asg cu db = (r, db') → db_wf db'.
Proof.
  intros Hwf. unfold assign_role_to_user.
  destruct (negb (is_superuser cu) && negb (has_role cu "admin"));
    [by intros [= _ <-]|].
  unfold get_db. py_unfold.
  destruct (filter _ (users db)) as [|u [|u' lu]]; simpl;
    try by intros [= _ <-].
  destruct (filter _ (roles db)) as [|role [|role' lr]]; simpl;
    try by intros [= _ <-].
  destruct (negb (role_is_active role)); [by intros [= _ <-]|].
  destruct (filter _ (user_roles db)) as [|row [|row' lw]]; simpl;
    try by intros [= _ <-].
  destruct (insert_user_role _ _ _ _ db) as [[row|e] db1] eqn:Hins;
    intros [= _ <-]; by eapply insert_user_role_wf.
Qed.

Lemma deactivate_user_role_wf assignment db r db' :
  db_wf db → deactivate_user_role assignment db = (r, db') → db_wf db'.
Proof.
  intros [W1 W2 W3 W4 W5 W6 W7 W8 W9]. unfold deactivate_user_role.
  intros [= _ <-].
  set (g := λ r : UserRoleRow, if ur_id r =? ur_id assignment then _ else r).
  assert (Hid : ∀ a, ur_id (g a) = ur_id a
                     ∧ ur_user_id (g a) = ur_user_id a
                     ∧ ur_role_id (g a) = ur_role_id a).
  { intros a. unfold g. by destruct (ur_id a =? ur_id assignment). }
  assert (Hin : ∀ a, a ∈ map g (user_roles db) →
                     ∃ a0, a0 ∈ user_roles db ∧ a = g a0).
  { intros a Ha. change (a ∈ g <$> user_roles db) in Ha.
    apply list_elem_of_fmap_1 in Ha as (a0 & -> & Ha0). eauto. }
  split; simpl; auto.
  - change (map g (user_roles db)) with (g <$> user_roles db).
    rewrite <- list_fmap_compose.
    erewrite list_fmap_ext; [exact W5|]. intros _ a _. simpl. apply Hid.
  - change (map g (user_roles db)) with (g <$> user_roles db).
    rewrite <- list_fmap_compose.
    erewrite list_fmap_ext; [exact W6|]. intros _ a _. simpl.
    destruct (Hid a) as (_ & -> & ->). reflexivity.
  - intros a Ha. apply Hin in Ha as (a0 & Ha0 & ->).
    destruct (Hid a0) as (-> & _). auto.
  - intros a Ha. apply Hin in Ha as (a0 & Ha0 & ->).
    destruct (Hid a0) as (_ & -> & _). auto.
  - intros a Ha. apply Hin in Ha as (a0 & Ha0 & ->).
    destruct (Hid a0) as (_ & _ & ->). auto.
Qed.

Lemma remove_role_from_user_wf id cu db r db' :
  db_wf db → remove_role_from_user id cu db = (r, db') → db_wf db'.
Proof.
  intros Hwf. unfold remove_role_from_user.
  destruct (negb (is_superuser cu) && negb (has_role cu "admin"));
    [by intros [= _ <-]|].
  unfold get_db. py_unfold.
  destruct (filter _ (user_roles db)) as [|row [|row' lw]]; simpl;
    try by intros [= _ <-].
  intros [= _ <-].
  by eapply (deactivate_user_role_wf row db (Return ())).
Qed.

Lemma delete_role_row_wf role db r db' :
  db_wf db → delete_role_row role db = (r, db') → db_wf db'.
Proof.
  intros [W1 W2 W3 W4 W5 W6 W7 W8 W9]. unfold delete_role_row.
  intros [= _ <-]. split; simpl; auto using NoDup_fmap_filter.
  - intros a [_ Ha]%list_elem_of_filter. auto.
  - intros a [_ Ha]%list_elem_of_filter. auto.
  - intros a [_ Ha]%list_elem_of_filter. auto.
  - intros a [Hne Ha]%list_elem_of_filter.
    destruct (list_elem_of_fmap_1 _ _ _ (W9 a Ha)) as (r0 & Hr0 & Hr0in).
    rewrite Hr0. apply list_elem_of_fmap_2, list_elem_of_filter.
    split; [congruence|done].
Qed.

Lemma delete_role_wf id cu db r db' :
  db_wf db → delete_role id cu db = (r, db') → db_wf db'.
Proof.
  intros Hwf. unfold delete_role.
  destruct (negb (is_superuser cu) && negb (has_role cu "admin"));
    [by intros [= _ <-]|].
  unfold get_db. py_unfold.
  destruct (filter _ (roles db)) as [|role [|role' lr]]; simpl;
    try by intros [= _ <-].
  destruct (0 <? _)%nat; [by intros [= _ <-]|].
  intros [= _ <-].
  by eapply (delete_role_row_wf role db (Return ())).
Qed.

End RoleProperties.

(** ** The role handlers on concrete inputs *)

Section RoleScenarios.

Import Roles Examples.

(** C3, at the input where the code departs from it.  On a database with
    one account and one active role: the first [assign] inserts row 1; a
    second [assign] is refused with "already assigned"; after the row has
    been revoked ([is_active] cleared, the row kept), [assign] does not
    reactivate it but raises [IntegrityError] from the insertion of a
    second row for the pair, and row 1 stays inactive. *)
Theorem reassign_after_revoke_raises_integrity_error :
  (∃ resp, assign_role_to_user assign_u1_r1 admin db0
           = (Return resp, db0_assigned true))
  ∧ assign_role_to_user assign_u1_r1 admin (db0_assigned true)
    = (Raise (HTTPException 400 "User already has this role assigned"),
       db0_assigned true)
  ∧ (∃ resp, remove_role_from_user 1 admin (db0_assigned true)
             = (Return resp, db0_assigned false))
  ∧ assign_role_to_user assign_u1_r1 admin (db0_assigned false)
    = (Raise IntegrityError, db0_assigned false).
Proof.
  repeat split; try (eexists; vm_compute; reflexivity);
    vm_compute; reflexivity.
Qed.

(** C5, at the input where the code departs from it.  Role 1 has one
    assignment, and that assignment has been removed with
    [remove_role_from_user]: no active assignment references the role, yet
    [delete_role] is still refused with the "assigned to users" error and
    the role stays. *)
Theorem delete_role_refused_after_revoke :
  (∃ resp, remove_role_from_user 1 admin (db0_assigned true)
           = (Return resp, db0_assigned false))
  ∧ filter (λ r, ur_role_id r = 1 ∧ ur_is_active r = true)
      (user_roles (db0_assigned false)) = []
  ∧ delete_role 1 admin (db0_assigned false)
    = (Raise (HTTPException 400
         "Cannot delete role that is assigned to users. Remove all assignments first."),
       db0_assigned false).
Proof.
  repeat split; try (eexists; vm_compute; reflexivity);
    vm_compute; reflexivity.
Qed.

Lemma db0_wf : db_wf db0.
Proof.
  split; simpl.
  1-3,5-6: repeat constructor; by intros Hx%elem_of_nil.
  - intros r Hr. apply list_elem_of_singleton in Hr as ->. simpl. lia.
  - intros r Hr. by apply elem_of_nil in Hr.
  - intros r Hr. by apply elem_of_nil in Hr.
  - intros r Hr. by apply elem_of_nil in Hr.
Qed.


End RoleScenarios.

(** * Further properties of the token code *)

Section TokenLifetime.

Context `{lib : JWTLib}.
Variable clock : nat → Z.
Variable utcoffset : Z → Z.
Variable settings : SecuritySettings.

(** The verdict of a verifier on a token whose claim set is exactly what
    the issuers write ([exp], [sub], [type], [iat]): it is accepted from
    its [iat] on and as long as the clock is before its [exp]. *)
Lemma verify_issued (key kind : string) t p e a j :
  jws_payload t = Some p →
  jws_verify t key [algorithm settings] = true →
  p !! "iat" = Some (JInt a) → p !! "nbf" = None →
  p !! "exp" = Some (JInt e) → p !! "aud" = None →
  p !! "type" = Some (JStr kind) →
  try_except
    (payload ← jwt_decode clock t key [algorithm settings];
     if bool_decide (payload !! "type" ≠ Some (JStr kind))
     then mret None else mret (Some payload))
    verify_handlers j
  = (Return (if (a <=? clock j) && (clock j <? e) then Some p else None), S j).
Proof.
  intros Hp Hs Hiat Hnbf Hexp Haud Hty.
  unfold jwt_decode. rewrite Hp, Hs.
  unfold _validate_claims, _validate_iat, _validate_nbf, _validate_exp,
    _validate_aud, utcnow.
  rewrite Hiat, Hnbf, Hexp, Haud. py_unfold. simpl.
  destruct (clock j <? a) eqn:E1.
  - simpl. destruct (a <=? clock j) eqn:E2; [lia|]. reflexivity.
  - destruct (a <=? clock j) eqn:E2; [|lia].
    destruct (e <=? clock j) eqn:E3; simpl.
    + destruct (clock j <? e) eqn:E4; [lia|]. reflexivity.
    + destruct (clock j <? e) eqn:E4; [|lia].
      rewrite Hty. rewrite bool_decide_eq_false_2 by (intros H; by apply H).
      reflexivity.
Qed.

(** What [create_access_token] returns when the algorithm is supported:
    the token of the claim set with [exp] at [expires_delta] (or the
    default lifetime) after the first reading of the clock. *)
Lemma create_access_token_supported subject delta i :
  jws_supported (algorithm settings) = true →
  let e := clock i +
           match delta with
           | Some d => if negb (d =? 0) then d
                       else 60 * access_token_expire_minutes settings
           | None => 60 * access_token_expire_minutes settings
           end in
  ∃ t,
    create_access_token clock settings subject delta i = (Return t, S (S i))
    ∧ jws_encode
        (<["exp" := JInt e]> (<["sub" := JStr subject]>
           (<["type" := JStr "access"]> (<["iat" := JInt (clock (S i))]> ∅))))
        (secret_key settings) (algorithm settings) = Some t.
Proof.
  intros Hsup e.
  set (p := <["exp" := JInt e]> _).
  destruct (jws_encode_supported p (secret_key settings) _ Hsup) as [t Ht].
  exists t. split; [|exact Ht].
  unfold create_access_token, jwt_encode, utcnow. py_unfold.
  subst p e. destruct delta as [d|]; [destruct (negb (d =? 0))|];
    simpl; rewrite Ht; reflexivity.
Qed.

Lemma create_refresh_token_supported subject i :
  jws_supported (algorithm settings) = true →
  ∃ t,
    create_refresh_token clock settings subject i = (Return t, S (S i))
    ∧ jws_encode
        (<["exp" := JInt (clock i + 86400 * refresh_token_expire_days settings)]>
           (<["sub" := JStr subject]> (<["type" := JStr "refresh"]>
              (<["iat" := JInt (clock (S i))]> ∅))))
        (users_secret settings) (algorithm settings) = Some t.
Proof.
  intros Hsup.
  set (p := <["exp" := _]> _).
  destruct (jws_encode_supported p (users_secret settings) _ Hsup) as [t Ht].
  exists t. split; [|exact Ht].
  unfold create_refresh_token, jwt_encode, utcnow. py_unfold.
  fold p. rewrite Ht. reflexivity.
Qed.

(** The issued claim sets have the four claims and no others that the
    library looks at. *)
Lemma issued_claims (kind subject : string) (e a : Z) :
  let p : payload :=
    <["exp" := JInt e]> (<["sub" := JStr subject]>
      (<["type" := JStr kind]> (<["iat" := JInt a]> ∅))) in
  p !! "iat" = Some (JInt a) ∧ p !! "nbf" = None
  ∧ p !! "exp" = Some (JInt e) ∧ p !! "aud" = None
  ∧ p !! "type" = Some (JStr kind) ∧ p !! "sub" = Some (JStr subject).
Proof. repeat split. Qed.


(** X2.  Round trip of a refresh token: it is accepted by
    [verify_refresh_token], with its subject and the kind "refresh", at a
    later reading of the clock exactly when that reading is before the
    first reading at issue plus [refresh_token_expire_days] days. *)
Theorem refresh_token_accepted_until_expiry subject i :
  jws_supported (algorithm settings) = true →
  ∃ t p,
    create_refresh_token clock settings subject i = (Return t, S (S i))
    ∧ p !! "sub" = Some (JStr subject)
    ∧ p !! "type" = Some (JStr "refresh")
    ∧ ∀ j, clock (S i) ≤ clock j →
        verify_refresh_token clock settings t j
        = (Return
             (if clock j <? clock i + 86400 * refresh_token_expire_days settings
              then Some p else None), S j).
Proof.
  intros Hsup.
  destruct (create_refresh_token_supported subject i Hsup) as (t & Hc & He).
  set (p := <["exp" := _]> _) in He.
  destruct (issued_claims "refresh" subject
              (clock i + 86400 * refresh_token_expire_days settings)
              (clock (S i)))
    as (Hiat & Hnbf & Hexp & Haud & Hty & Hsub).
  exists t, p. repeat split; auto.
  intros j Hj. unfold verify_refresh_token.
  rewrite (verify_issued (users_secret settings) "refresh" t p
             (clock i + 86400 * refresh_token_expire_days settings)
             (clock (S i)) j); auto.
  - destruct (clock (S i) <=? clock j) eqn:E1; [reflexivity|lia].
  - by apply jws_payload_encode in He.
  - by apply jws_verify_encode in He.
Qed.

End TokenLifetime.

Section TokenQueries.

Context `{lib : JWTLib}.
Variable clock : nat → Z.
Variable utcoffset : Z → Z.
Variable settings : SecuritySettings.

(** A verifier returns [None] for a token whose [type] claim is not its
    own kind. *)
Lemma verify_access_token_other_kind t p j :
  jws_payload t = Some p → p !! "type" ≠ Some (JStr "access") →
  ∃ j', verify_access_token clock settings t j = (Return None, j').
Proof.
  intros Hp Hty.
  destruct (verify_access_token_total clock settings t j)
    as ([q|] & j' & Hv); [|eauto].
  apply verify_access_token_Some in Hv as (Hq & _ & Hty' & _).
  rewrite Hp in Hq. injection Hq as <-. contradiction.
Qed.

Lemma verify_refresh_token_other_kind t p j :
  jws_payload t = Some p → p !! "type" ≠ Some (JStr "refresh") →
  ∃ j', verify_refresh_token clock settings t j = (Return None, j').
Proof.
  intros Hp Hty.
  destruct (verify_refresh_token_total clock settings t j)
    as ([q|] & j' & Hv); [|eauto].
  apply verify_refresh_token_Some in Hv as (Hq & _ & Hty' & _).
  rewrite Hp in Hq. injection Hq as <-. contradiction.
Qed.

(** X3.  [create_token_pair] makes four readings of the clock and returns
    an access and a refresh token for the same subject; read at any later
    time before the expiry of the access token, each is accepted by its
    own verifier, with that subject, and rejected by the other verifier. *)
Theorem create_token_pair_verifies user_id i :
  jws_supported (algorithm settings) = true →
  ∃ access_token refresh_token pa pr,
    create_token_pair clock settings user_id i
    = (Return (access_token, refresh_token), S (S (S (S i))))
    ∧ pa !! "sub" = Some (JStr user_id)
    ∧ pr !! "sub" = Some (JStr user_id)
    ∧ ∀ j,
        clock (S i) ≤ clock j → clock (S (S (S i))) ≤ clock j →
        clock j < clock i + 60 * access_token_expire_minutes settings →
        clock j < clock (S (S i))
                  + 86400 * refresh_token_expire_days settings →
        verify_access_token clock settings access_token j
        = (Return (Some pa), S j)
        ∧ verify_refresh_token clock settings refresh_token j
          = (Return (Some pr), S j)
        ∧ (∃ j', verify_access_token clock settings refresh_token j
                 = (Return None, j'))
        ∧ (∃ j', verify_refresh_token clock settings access_token j
                 = (Return None, j')).
Proof.
  intros Hsup.
  destruct (create_access_token_supported clock settings user_id None i Hsup)
    as (ta & Hca & Hea).
  destruct (create_refresh_token_supported clock settings user_id
              (S (S i)) Hsup) as (tr & Hcr & Her).
  simpl in Hea.
  set (pa := <["exp" := _]> _) in Hea. set (pr := <["exp" := _]> _) in Her.
  destruct (issued_claims "access" user_id
              (clock i + 60 * access_token_expire_minutes settings)
              (clock (S i)))
    as (Hiat & Hnbf & Hexp & Haud & Hty & Hsub).
  destruct (issued_claims "refresh" user_id
              (clock (S (S i)) + 86400 * refresh_token_expire_days settings)
              (clock (S (S (S i)))))
    as (Hiat' & Hnbf' & Hexp' & Haud' & Hty' & Hsub').
  exists ta, tr, pa, pr. split; [|split; [exact Hsub|split; [exact Hsub'|]]].
  - unfold create_token_pair. py_unfold. rewrite Hca, Hcr. reflexivity.
  - intros j Hj1 Hj2 Hj3 Hj4.
    pose proof (jws_payload_encode _ _ _ _ Hea) as Hpa.
    pose proof (jws_payload_encode _ _ _ _ Her) as Hpr.
    split; [|split; [|split]].
    + unfold verify_access_token.
      rewrite (verify_issued clock settings (secret_key settings) "access"
                 ta pa _ _ j Hpa (jws_verify_encode _ _ _ _ Hea)
                 Hiat Hnbf Hexp Haud Hty).
      destruct (_ <=? _) eqn:E1; [|lia].
      destruct (_ <? _) eqn:E2; [reflexivity|lia].
    + unfold verify_refresh_token.
      rewrite (verify_issued clock settings (users_secret settings) "refresh"
                 tr pr _ _ j Hpr (jws_verify_encode _ _ _ _ Her)
                 Hiat' Hnbf' Hexp' Haud' Hty').
      destruct (_ <=? _) eqn:E1; [|lia].
      destruct (_ <? _) eqn:E2; [reflexivity|lia].
    + apply (verify_access_token_other_kind tr pr j Hpr).
      unfold pr. rewrite Hty'. discriminate.
    + apply (verify_refresh_token_other_kind ta pa j Hpa).
      unfold pa. rewrite Hty. discriminate.
Qed.

(** X4.  When the library cannot sign with the configured algorithm, the
    issuers raise [HTTPException] with status 500 and their own detail,
    and no other exception; [create_token_pair] fails with the error of
    the access token. *)
Theorem token_creation_failure_is_500 subject delta i :
  (∀ p k, jws_encode p k (algorithm settings) = None) →
  create_access_token clock settings subject delta i
  = (Raise (HTTPException 500 "Failed to create access token"), S (S i))
  ∧ create_refresh_token clock settings subject i
    = (Raise (HTTPException 500 "Failed to create refresh token"), S (S i))
  ∧ create_token_pair clock settings subject i
    = (Raise (HTTPException 500 "Failed to create access token"), S (S i)).
Proof.
  intros Hnone.
  assert (Ha : ∀ d, create_access_token clock settings subject d i
    = (Raise (HTTPException 500 "Failed to create access token"), S (S i))).
  { intros d'. unfold create_access_token, jwt_encode, utcnow. py_unfold.
    destruct d' as [d'|]; [destruct (negb (d' =? 0))|]; simpl;
      rewrite Hnone; reflexivity. }
  split; [apply Ha|]. split.
  - unfold create_refresh_token, jwt_encode, utcnow. py_unfold.
    rewrite Hnone. reflexivity.
  - unfold create_token_pair. py_unfold. rewrite Ha. reflexivity.
Qed.

(** The expiry that [get_token_expiration] reports depends on the token
    alone, not on the clock. *)
Lemma get_token_expiration_pure token :
  ∃ x, ∀ i, get_token_expiration utcoffset token i = (Return x, i).
Proof.
  unfold get_token_expiration, jwt_decode_unverified, fromtimestamp.
  py_unfold.
  destruct (jws_payload token) as [p|]; [|eauto].
  destruct (truthy (p !! "exp")); [|eauto].
  destruct (p !! "exp") as [[| |z|]|]; eauto;
    destruct (_ && _); eauto.
Qed.

Lemma is_token_expired_from token x i :
  get_token_expiration utcoffset token i = (Return x, i) →
  is_token_expired clock utcoffset token i
  = match x with
    | Some t => (Return (t <=? clock i), S i)
    | None => (Return true, i)
    end.
Proof.
  intros Hx. unfold is_token_expired, utcnow. py_unfold. rewrite Hx.
  by destruct x.
Qed.

Lemma get_token_remaining_time_from token x i :
  get_token_expiration utcoffset token i = (Return x, i) →
  get_token_remaining_time clock utcoffset token i
  = match x with
    | Some t =>
        (Return (Some (if 0 <? t - clock i then t - clock i else 0)), S i)
    | None => (Return None, i)
    end.
Proof.
  intros Hx. unfold get_token_remaining_time, utcnow. py_unfold. rewrite Hx.
  by destruct x.
Qed.

(** X5.  At one reading of the clock, [get_token_remaining_time] and
    [is_token_expired] agree: the remaining time is never negative, and
    the token is reported expired exactly when no remaining time or a
    remaining time of zero is reported. *)
Theorem remaining_time_agrees_with_expired token i :
  ∃ b r i',
    is_token_expired clock utcoffset token i = (Return b, i')
    ∧ get_token_remaining_time clock utcoffset token i = (Return r, i')
    ∧ (b = true ↔ r = None ∨ r = Some 0)
    ∧ (∀ d, r = Some d → 0 ≤ d).
Proof.
  destruct (get_token_expiration_pure token) as [x Hx].
  rewrite (is_token_expired_from token x i (Hx i)),
    (get_token_remaining_time_from token x i (Hx i)).
  destruct x as [t|].
  - eexists _, _, _. split; [reflexivity|]. split; [reflexivity|].
    destruct (0 <? t - clock i) eqn:E; split.
    + split; [lia|]. intros [H|[= H]]; [discriminate|lia].
    + intros d' [= <-]. lia.
    + split; [auto|]. intros _. lia.
    + intros d' [= <-]. lia.
  - eexists _, _, _. split; [reflexivity|]. split; [reflexivity|].
    split; [tauto|]. intros d' [=].
Qed.

(** X6.  [validate_token_expiration] never raises and is the negation of
    [is_token_expired] at the same reading of the clock. *)
Theorem validate_token_expiration_negates_expired token i :
  ∃ b i' i'',
    is_token_expired clock utcoffset token i = (Return b, i')
    ∧ validate_token_expiration clock utcoffset token i
      = (Return (negb b), i'').
Proof.
  destruct (get_token_expiration_pure token) as [x Hx].
  unfold validate_token_expiration. py_unfold.
  rewrite (is_token_expired_from token x i (Hx i)).
  destruct x as [t|].
  - destruct (t <=? clock i) eqn:E.
    + eexists _, _, _. split; reflexivity.
    + rewrite (get_token_remaining_time_from token (Some t) (S i) (Hx (S i))).
      eexists _, _, _. split; reflexivity.
  - eexists _, _, _. split; reflexivity.
Qed.

(** X7.  Whatever the error type, known or not, and whatever the custom
    message, [handle_token_error] answers with status 401 and the body
    [{"success": false, "message": m, "errors": [error_type]}], where
    [m] is the custom message when it is given and not empty, else the
    message of the table, else "Authentication error"; the four branches
    on the error type make no difference, and the message of the answer
    is never empty. *)
Theorem handle_token_error_uniform error_type custom :
  handle_token_error error_type custom
  = {| content :=
         {| success := false;
            message :=
              match custom with
              | Some m =>
                  if String.eqb m "" then
                    default "Authentication error" (error_messages error_type)
                  else m
              | None =>
                  default "Authentication error" (error_messages error_type)
              end;
            data := None;
            errors := Some [error_type];
            meta := None |};
       status_code := 401 |}
  ∧ message (content (handle_token_error error_type custom)) ≠ "".
Proof.
  assert (Heq : handle_token_error error_type custom
    = {| content :=
           {| success := false;
              message :=
                match custom with
                | Some m =>
                    if String.eqb m "" then
                      default "Authentication error"
                        (error_messages error_type)
                    else m
                | None =>
                    default "Authentication error" (error_messages error_type)
                end;
              data := None;
              errors := Some [error_type];
              meta := None |};
         status_code := 401 |}).
  { unfold handle_token_error, create_error_response, HTTP_401_UNAUTHORIZED.
    repeat match goal with |- context [if ?b then _ else _] =>
      match b with
      | PyStr.contains _ _ => destruct b
      | String.eqb error_type "missing" => destruct b
      end end; reflexivity. }
  split; [exact Heq|].
  rewrite Heq. cbn [content message].
  assert (Htable : default "Authentication error" (error_messages error_type)
                   ≠ "").
  { unfold error_messages.
    repeat match goal with |- context [if ?b then _ else _] =>
      destruct b end; discriminate. }
  destruct custom as [m|]; [|exact Htable].
  destruct (String.eqb m "") eqn:E; [exact Htable|].
  by apply String.eqb_neq.
Qed.

End TokenQueries.

(** * Further properties of the request gate *)

Lemma prefix_refl (s : string) : String.prefix s s = true.
Proof.
  induction s as [|c s IH]; [reflexivity|]. simpl.
  destruct (ascii_dec c c); [exact IH|contradiction].
Qed.

Lemma prefix_app (e s suffix : string) :
  String.prefix e s = true → String.prefix e (s ++ suffix) = true.
Proof.
  revert s. induction e as [|c e IH]; intros s.
  { intros _. by destruct (s ++ suffix). }
  destruct s as [|d s]; simpl; [discriminate|].
  destruct (ascii_dec c d); [apply IH|discriminate].
Qed.

Lemma contains_eq (l : list string) (x : string) :
  PyStr.contains l x = true → x ∈ l.
Proof.
  unfold PyStr.contains. intros (y & Hy & Heq%String.eqb_eq)%existsb_exists.
  subst y. by apply list_elem_of_In.
Qed.

(** X8.  The exact-match test of [_should_skip_auth] adds nothing: a path
    is skipped exactly when some entry of the allow-list is a prefix of
    it.  Hence every extension of a skipped path is skipped too. *)
Theorem should_skip_auth_is_prefix_match self path :
  _should_skip_auth self path
  = existsb (λ excluded_path, String.prefix excluded_path path)
      (excluded_paths self)
  ∧ ∀ suffix,
      _should_skip_auth self path = true →
      _should_skip_auth self (path ++ suffix) = true.
Proof.
  assert (Heq : ∀ p, _should_skip_auth self p
    = existsb (λ e, String.prefix e p) (excluded_paths self)).
  { intros p. unfold _should_skip_auth, PyStr.startswith.
    destruct (PyStr.contains (excluded_paths self) p) eqn:Hc; [|reflexivity].
    symmetry. apply contains_eq in Hc.
    apply (existsb_true_intro _ _ p Hc), prefix_refl. }
  split; [apply Heq|].
  intros suffix. rewrite !Heq.
  intros (e & He & Hp)%existsb_true_elim.
  apply (existsb_true_intro _ _ e He), prefix_app, Hp.
Qed.

(** *** Splitting the [Authorization] header *)

Lemma split_once_join (scheme token : string) :
  PyStr.all_chars (λ c, negb (Ascii.eqb c " ")) scheme = true →
  PyStr.split_once " " (scheme ++ " " ++ token) = [scheme; token].
Proof.
  induction scheme as [|c s IH]; simpl; [reflexivity|].
  intros [Hc Hs]%andb_true_iff. apply negb_true_iff in Hc.
  rewrite Hc, (IH Hs). reflexivity.
Qed.

Lemma split_once_two (a scheme token : string) :
  PyStr.split_once " " a = [scheme; token] →
  a = scheme ++ " " ++ token
  ∧ PyStr.all_chars (λ c, negb (Ascii.eqb c " ")) scheme = true.
Proof.
  revert scheme. induction a as [|c a IH]; intros scheme; simpl;
    [discriminate|].
  destruct (Ascii.eqb c " ") eqn:Hc.
  - apply Ascii.eqb_eq in Hc as ->. intros [= <- <-]. done.
  - destruct (PyStr.split_once " " a) as [|x [|y [|z l]]] eqn:Hs;
      try discriminate.
    intros [= <- <-]. destruct (IH x eq_refl) as [-> Hx].
    simpl. rewrite Hc, Hx. done.
Qed.

(** X9.  [_extract_token] returns a token exactly for a header made of a
    scheme without a space that is "bearer" in any letter case, one
    space, and the token, which is everything after that space (further
    spaces included); any other header, or none, gives [None]. *)
Theorem extract_token_iff_bearer request token :
  _extract_token request = Some token
  ↔ ∃ scheme,
      authorization request = Some (scheme ++ " " ++ token)
      ∧ PyStr.all_chars (λ c, negb (Ascii.eqb c " ")) scheme = true
      ∧ PyStr.lower scheme = "bearer".
Proof.
  unfold _extract_token. split.
  - destruct (authorization request) as [a|]; [|discriminate].
    destruct (String.eqb a ""); [discriminate|].
    destruct (PyStr.split_once " " a) as [|scheme [|tok [|x l]]] eqn:Hs;
      try discriminate.
    destruct (String.eqb (PyStr.lower scheme) "bearer") eqn:Hl;
      [|discriminate].
    simpl. intros [= <-]. apply String.eqb_eq in Hl.
    destruct (split_once_two a scheme tok Hs) as [-> Hns]. eauto.
  - intros (scheme & -> & Hns & Hl).
    destruct (String.eqb (scheme ++ " " ++ token) "") eqn:E.
    + apply String.eqb_eq in E. destruct scheme; discriminate.
    + rewrite (split_once_join scheme token Hns), Hl. reflexivity.
Qed.

Section GateOutcomes.

Context `{lib : JWTLib}.
Variable clock : nat → Z.
Variable utcoffset : Z → Z.
Variable settings : SecuritySettings.

(** The run of [dispatch] once the verifier has accepted the token at the
    first reading: the expiry check by local time, then a second
    verification. *)
Lemma dispatch_after_verification self request token p i :
  _should_skip_auth self (url_path request) = false →
  _extract_token request = Some token → token ≠ "" →
  verify_access_token clock settings token i = (Return (Some p), S i) →
  dispatch clock utcoffset settings self request i
  = (fresh ← validate_token_expiration clock utcoffset token;
     if negb fresh then
       mret (Respond (handle_token_error "expired" None))
     else
       payload ← verify_access_token clock settings token;
       match payload with
       | Some p =>
           if bool_decide (p ≠ ∅) then
             mret (CallNext {| state_user_id := p !! "sub";
                               state_token_payload := Some p |})
           else mret (CallNext empty_state)
       | None => mret (CallNext empty_state)
       end) (S i).
Proof.
  intros Hskip Htok Hne Hv. unfold dispatch. rewrite Hskip, Htok.
  destruct (String.eqb token "") eqn:E; [apply String.eqb_eq in E; done|].
  unfold _validate_token. py_unfold. rewrite Hv. reflexivity.
Qed.

(** X10.  The gate hands a request to the downstream handler with the
    identity attached when the token is accepted by the verifier at the
    first and at the fourth reading of the clock and its [exp], taken as
    local time, is after the second reading: [request.state.user_id] is
    the [sub] claim and [request.state.token_payload] the claim set. *)
Theorem dispatch_attaches_verified_identity self request token p e i :
  _should_skip_auth self (url_path request) = false →
  _extract_token request = Some token → token ≠ "" →
  verify_access_token clock settings token i = (Return (Some p), S i) →
  verify_access_token clock settings token (S (S (S i)))
  = (Return (Some p), S (S (S (S i)))) →
  p !! "exp" = Some (JInt e) → e ≠ 0 →
  datetime_min ≤ e + utcoffset e ≤ datetime_max →
  clock (S i) < e + utcoffset e →
  dispatch clock utcoffset settings self request i
  = (Return (CallNext {| state_user_id := p !! "sub";
                         state_token_payload := Some p |}),
     S (S (S (S i)))).
Proof.
  intros Hskip Htok Hne Hv1 Hv4 He Hnz Hr Hlt.
  rewrite (dispatch_after_verification self request token p i) by done.
  apply verify_access_token_Some in Hv1 as (Hp & _).
  pose proof (get_token_expiration_exp utcoffset token p e) as Hg.
  unfold validate_token_expiration. py_unfold.
  rewrite (is_token_expired_from clock utcoffset token _ (S i)
             (Hg (S i) Hp He Hnz Hr)).
  destruct (e + utcoffset e <=? clock (S i)) eqn:E; [lia|].
  rewrite (get_token_remaining_time_from clock utcoffset token _ (S (S i))
             (Hg (S (S i)) Hp He Hnz Hr)).
  simpl. rewrite Hv4.
  rewrite bool_decide_eq_true_2; [reflexivity|].
  intros ->. rewrite lookup_empty in He. discriminate.
Qed.

(** X11.  The "expired" answer of the gate comes from comparing the
    token's [exp], converted to naive local time, with the naive UTC
    clock: a token that the verifier has just accepted is answered with
    "expired" when [exp] plus the UTC offset of the server is not after
    the next reading.  On a server west of UTC by more than the lifetime
    of a token this is so for every fresh token. *)
Theorem dispatch_expired_by_local_time self request token p e i :
  _should_skip_auth self (url_path request) = false →
  _extract_token request = Some token → token ≠ "" →
  verify_access_token clock settings token i = (Return (Some p), S i) →
  p !! "exp" = Some (JInt e) → e ≠ 0 →
  datetime_min ≤ e + utcoffset e ≤ datetime_max →
  e + utcoffset e ≤ clock (S i) →
  dispatch clock utcoffset settings self request i
  = (Return (Respond (handle_token_error "expired" None)), S (S i)).
Proof.
  intros Hskip Htok Hne Hv1 He Hnz Hr Hle.
  rewrite (dispatch_after_verification self request token p i) by done.
  apply verify_access_token_Some in Hv1 as (Hp & _).
  pose proof (get_token_expiration_exp utcoffset token p e) as Hg.
  unfold validate_token_expiration. py_unfold.
  rewrite (is_token_expired_from clock utcoffset token _ (S i)
             (Hg (S i) Hp He Hnz Hr)).
  destruct (e + utcoffset e <=? clock (S i)) eqn:E; [reflexivity|lia].
Qed.

(** What [dispatch] leaves in [request.state] when it hands the request
    on. *)
Lemma dispatch_CallNext_inv self request i st i' :
  dispatch clock utcoffset settings self request i
  = (Return (CallNext st), i') →
  (_should_skip_auth self (url_path request) = true ∧ st = empty_state)
  ∨ (_should_skip_auth self (url_path request) = false
     ∧ ∃ token p,
         _extract_token request = Some token ∧ token ≠ ""
         ∧ verify_access_token clock settings token i
           = (Return (Some p), S i)
         ∧ (st = empty_state
            ∨ ∃ q j, verify_access_token clock settings token j
                     = (Return (Some q), S j)
                     ∧ st = {| state_user_id := q !! "sub";
                               state_token_payload := Some q |})).
Proof.
  unfold dispatch.
  destruct (_should_skip_auth self (url_path request)) eqn:Hskip.
  { intros [= <- _]. left. done. }
  right. split; [done|].
  destruct (_extract_token request) as [token|]; [|discriminate].
  destruct (String.eqb token "") eqn:E; [discriminate|].
  apply String.eqb_neq in E. revert H. unfold _validate_token. py_unfold.
  destruct (verify_access_token_total clock settings token i)
    as (r1 & i1 & Hv1). rewrite Hv1.
  destruct r1 as [p|]; simpl; [|discriminate].
  pose proof Hv1 as Hv1'.
  apply verify_access_token_Some in Hv1' as (_ & _ & _ & _ & ->).
  destruct (validate_token_expiration_total clock utcoffset token (S i))
    as (b2 & i2 & ->).
  destruct b2; simpl; [|discriminate].
  destruct (verify_access_token_total clock settings token i2)
    as (r3 & i3 & Hv3). rewrite Hv3.
  pose proof Hv3 as Hv3'.
  destruct r3 as [q|].
  - apply verify_access_token_Some in Hv3' as (_ & _ & _ & _ & ->).
    case_bool_decide; intros [= <- _]; exists token, p;
      repeat split; eauto.
  - intros [= <- _]. exists token, p. repeat split; eauto.
Qed.

(** X12.  The gate never hands on a request for a path it does not skip
    unless the verifier accepted the token of its [Authorization] header
    at the first reading of the clock; and an identity it attaches is the
    [sub] claim of an access token that the verifier accepted. *)
Theorem dispatch_forwards_only_verified self request i st i' :
  _should_skip_auth self (url_path request) = false →
  dispatch clock utcoffset settings self request i
  = (Return (CallNext st), i') →
  ∃ token p,
    _extract_token request = Some token ∧ token ≠ ""
    ∧ verify_access_token clock settings token i = (Return (Some p), S i)
    ∧ jws_verify token (secret_key settings) [algorithm settings] = true
    ∧ ∀ v, state_user_id st = Some v →
        ∃ q, state_token_payload st = Some q ∧ q !! "sub" = Some v
             ∧ jws_payload token = Some q
             ∧ q !! "type" = Some (JStr "access").
Proof.
  intros Hskip Hd.
  apply dispatch_CallNext_inv in Hd as [[Hs _]|(_ & token & p & Ht & Hne & Hv & Hst)];
    [congruence|].
  exists token, p. split; [done|]. split; [done|]. split; [done|].
  pose proof Hv as Hv'.
  apply verify_access_token_Some in Hv' as (_ & Hsig & _).
  split; [done|].
  intros v Hu. destruct Hst as [->|(q & j & Hq & ->)]; [discriminate|].
  simpl in Hu. apply verify_access_token_Some in Hq as (Hq & _ & Hty & _).
  exists q. done.
Qed.

(** X13.  [get_current_user_id] and [get_token_payload] after the gate:
    on a path that the gate skips both raise the 401 error, whatever
    header the request carries; and whenever [get_current_user_id]
    returns an identity, [get_token_payload] returns a claim set whose
    [sub] is that identity. *)
Theorem state_accessors_after_dispatch self request i st i' :
  dispatch clock utcoffset settings self request i
  = (Return (CallNext st), i') →
  (_should_skip_auth self (url_path request) = true →
   get_current_user_id st
   = Raise (HTTPException 401 "User not authenticated")
   ∧ get_token_payload st
     = Raise (HTTPException 401 "Token payload not found"))
  ∧ (∀ v, get_current_user_id st = Return v →
       ∃ q, get_token_payload st = Return q ∧ q !! "sub" = Some v).
Proof.
  intros Hd.
  apply dispatch_CallNext_inv in Hd
    as [[Hs ->]|(Hs & token & p & _ & _ & _ & Hst)].
  - split; [done|]. intros v. discriminate.
  - split; [congruence|].
    intros v. destruct Hst as [->|(q & j & Hq & ->)]; [discriminate|].
    unfold get_current_user_id, get_token_payload.
    cbn [state_user_id state_token_payload].
    destruct (q !! "sub") as [u|] eqn:Hu; [|intros Hx; discriminate Hx].
    destruct (negb (truthy (Some u))); [intros Hx; discriminate Hx|].
    intros [= <-]. exists q.
    rewrite bool_decide_eq_false_2; [done|].
    intros ->. rewrite lookup_empty in Hu. discriminate.
Qed.

End GateOutcomes.

(** * Further properties of the role handlers *)

Section RoleHandlers.

Import Roles.

(** X14.  The first grant of a role: for an existing account, an existing
    active role and no assignment row for the pair, [assign_role_to_user]
    succeeds and appends one active row with the next id, granted at the
    time of the database by [assigned_by], or by the caller when the
    request names nobody; accounts and roles are untouched. *)
Theorem assign_role_to_user_first_grant asg cu db u role :
  db_wf db → authorised cu →
  u ∈ users db → u_id u = user_id asg →
  role ∈ roles db → role_id role = assignment_role_id asg →
  role_is_active role = true →
  (∀ row, row ∈ user_roles db →
     ¬ (ur_user_id row = user_id asg
        ∧ ur_role_id row = assignment_role_id asg)) →
  assign_role_to_user asg cu db
  = (Return {| response_success := true;
               response_message :=
                 "Role '" ++ role_name role ++ "' assigned to user successfully";
               response_data := None |},
     {| users := users db; roles := roles db;
        user_roles := user_roles db ++
          [ {| ur_id := user_roles_id_seq db + 1;
               ur_user_id := user_id asg;
               ur_role_id := assignment_role_id asg;
               ur_assigned_at := db_now db;
               ur_assigned_by :=
                 Some (default (cu_id cu) (assigned_by asg));
               ur_is_active := true |} ];
        roles_id_seq := roles_id_seq db;
        user_roles_id_seq := user_roles_id_seq db + 1;
        db_now := db_now db |}).
Proof.
  intros Hwf Hauth Hu Huid Hr Hrid Hact Hnone.
  rewrite (assign_role_to_user_checked asg cu db u role) by done.
  py_unfold.
  rewrite filter_none by (intros a Ha (H1 & H2 & _); by apply (Hnone a Ha)).
  simpl. unfold insert_user_role.
  assert (H1 : existsb (λ r, (ur_id r =? user_roles_id_seq db + 1)
      || (String.eqb (ur_user_id r) (user_id asg)
          && (ur_role_id r =? assignment_role_id asg))) (user_roles db) = false).
  { apply existsb_false_iff. intros a Ha. apply orb_false_iff. split.
    - pose proof (wf_ur_seq db Hwf a Ha). lia.
    - apply andb_false_iff.
      destruct (String.eqb_spec (ur_user_id a) (user_id asg)) as [E1|];
        [|by left].
      destruct (Z.eqb_spec (ur_role_id a) (assignment_role_id asg)) as [E2|];
        [|by right].
      by destruct (Hnone a Ha). }
  assert (H2 : existsb (λ x, String.eqb (u_id x) (user_id asg)) (users db)
               = true).
  { apply (existsb_true_intro _ _ u Hu). rewrite Huid. apply String.eqb_refl. }
  assert (H3 : existsb (λ r, role_id r =? assignment_role_id asg) (roles db)
               = true).
  { apply (existsb_true_intro _ _ role Hr). rewrite Hrid. apply Z.eqb_refl. }
  simpl. rewrite H1, H2, H3. reflexivity.
Qed.

(** *** A failed request changes nothing *)

Lemma scalar_one_or_none_state {A} (rows : list A) db r db' :
  scalar_one_or_none rows db = (r, db') → db' = db.
Proof.
  unfold scalar_one_or_none. py_unfold.
  destruct rows as [|x [|y l]]; by intros [= _ <-].
Qed.

Lemma create_role_Raise rd cu db e db' :
  create_role rd cu db = (Raise e, db') → db' = db.
Proof.
  unfold create_role.
  destruct (negb (is_superuser cu) && negb (has_role cu "admin"));
    [by intros [= _ <-]|].
  unfold get_db. py_unfold.
  destruct (filter _ (roles db)) as [|x [|y l]]; simpl;
    try by intros [= _ <-].
  unfold insert_role. destruct (existsb _ (roles db)); simpl;
    [by intros [= _ <-]|discriminate].
Qed.

Lemma update_role_row_Raise id n d ps a db e db' :
  update_role_row id n d ps a db = (Raise e, db') → db' = db.
Proof.
  unfold update_role_row. destruct n as [n|]; [|by intros [= _ <-]].
  destruct a as [a|]; [|by intros [= _ <-]].
  destruct (existsb _ (roles db)); [by intros [= _ <-]|discriminate].
Qed.

Local Opaque update_role_row.

Lemma update_role_Raise id rd cu db e db' :
  update_role id rd cu db = (Raise e, db') → db' = db.
Proof.
  unfold update_role.
  destruct (negb (is_superuser cu) && negb (has_role cu "admin"));
    [by intros [= _ <-]|].
  unfold get_db. py_unfold.
  destruct (filter _ (roles db)) as [|role [|y l]]; simpl;
    try by intros [= _ <-].
  assert (Hrow : ∀ n d ps a r db1,
    update_role_row (role_id role) n d ps a db = (r, db1) →
    (∀ row, r ≠ Return row) → db1 = db).
  { intros n d ps a [row|e0] db1 Hu Hr; [by destruct (Hr row)|].
    by apply update_role_row_Raise in Hu. }
  destruct (update_name rd) as [[n|]|]; simpl.
  - destruct (negb (String.eqb n "") && negb (String.eqb n (role_name role)));
      simpl.
    + destruct (filter _ (roles db)) as [|x [|y l]]; simpl;
        try by intros [= _ <-].
      destruct (update_role_row _ _ _ _ _ db) as [[row|e0] db1] eqn:Hu;
        [discriminate|].
      intros [= _ <-]. by apply update_role_row_Raise in Hu.
    + destruct (update_role_row _ _ _ _ _ db) as [[row|e0] db1] eqn:Hu;
        [discriminate|].
      intros [= _ <-]. by apply update_role_row_Raise in Hu.
  - destruct (update_role_row _ _ _ _ _ db) as [[row|e0] db1] eqn:Hu;
      [discriminate|].
    intros [= _ <-]. by apply update_role_row_Raise in Hu.
  - destruct (update_role_row _ _ _ _ _ db) as [[row|e0] db1] eqn:Hu;
      [discriminate|].
    intros [= _ <-]. by apply update_role_row_Raise in Hu.
Qed.

Local Transparent update_role_row.





(** *** Revoking twice *)

Lemma remove_role_from_user_found id cu db row :
  db_wf db → authorised cu → row ∈ user_roles db → ur_id row = id →
  remove_role_from_user id cu db
  = (Return {| response_success := true;
               response_message := "Role assignment removed successfully";
               response_data := None |},
     {| users := users db; roles := roles db;
        user_roles :=
          map (λ r, if ur_id r =? id then
                      {| ur_id := ur_id r; ur_user_id := ur_user_id r;
                         ur_role_id := ur_role_id r;
                         ur_assigned_at := ur_assigned_at r;
                         ur_assigned_by := ur_assigned_by r;
                         ur_is_active := false |}
                    else r) (user_roles db);
        roles_id_seq := roles_id_seq db;
        user_roles_id_seq := user_roles_id_seq db;
        db_now := db_now db |}).
Proof.
  intros Hwf Hauth Hrow <-. unfold remove_role_from_user.
  rewrite (authorised_guard cu Hauth). unfold get_db. py_unfold.
  rewrite (filter_key_present ur_id (user_roles db) row
             (wf_ur_ids db Hwf) Hrow).
  reflexivity.
Qed.

(** X16.  Revoking is idempotent and keeps the row: for an existing
    assignment [remove_role_from_user] succeeds, leaves the number of
    rows unchanged and the row inactive, and a second call with the same
    id succeeds with the same answer and changes nothing more. *)
Theorem remove_role_from_user_idempotent id cu db row :
  db_wf db → authorised cu → row ∈ user_roles db → ur_id row = id →
  ∃ resp db1,
    remove_role_from_user id cu db = (Return resp, db1)
    ∧ remove_role_from_user id cu db1 = (Return resp, db1)
    ∧ length (user_roles db1) = length (user_roles db)
    ∧ ∀ r, r ∈ user_roles db1 → ur_id r = id → ur_is_active r = false.
Proof.
  intros Hwf Hauth Hrow Hid.
  pose proof (remove_role_from_user_found id cu db row Hwf Hauth Hrow Hid)
    as H1.
  set (g := λ r : UserRoleRow, if ur_id r =? id then _ else r) in H1.
  eexists _, _. split; [exact H1|].
  pose proof (remove_role_from_user_wf id cu db _ _ Hwf H1) as Hwf1.
  assert (Hrow1 : g row ∈ map g (user_roles db)).
  { change (g row ∈ g <$> user_roles db). by apply list_elem_of_fmap_2. }
  assert (Hgid : ∀ r, ur_id (g r) = ur_id r).
  { intros r. unfold g. by destruct (ur_id r =? id). }
  split; [|split].
  - rewrite (remove_role_from_user_found id cu _ (g row) Hwf1 Hauth Hrow1)
      by (rewrite Hgid; exact Hid).
    simpl. f_equal. f_equal. rewrite map_map. apply map_ext.
    intros r. fold g. rewrite Hgid. unfold g.
    destruct (ur_id r =? id) eqn:E; simpl; rewrite ?E; reflexivity.
  - simpl. apply length_map.
  - simpl. intros r Hr Hrid. change (r ∈ g <$> user_roles db) in Hr.
    apply list_elem_of_fmap_1 in Hr as (r0 & -> & _).
    rewrite Hgid in Hrid. unfold g. apply Z.eqb_eq in Hrid. by rewrite Hrid.
Qed.

(** *** Deleting and looking up roles *)

Lemma filter_all {A} (P : A → Prop) `{∀ a, Decision (P a)} (l : list A) :
  (∀ a, a ∈ l → P a) → filter P l = l.
Proof.
  induction l as [|a l IH]; intros Hall; [reflexivity|].
  rewrite filter_cons_True by (apply Hall; left). f_equal.
  apply IH. intros b Hb. apply Hall. by right.
Qed.

Lemma get_role_found id db role :
  NoDup (role_id <$> roles db) → role ∈ roles db → role_id role = id →
  get_role id db
  = (Return {| response_success := true;
               response_message := "Role retrieved successfully";
               response_data := Some role |}, db).
Proof.
  intros Hnd Hr <-. unfold get_role, get_db. py_unfold.
  rewrite (filter_key_present role_id (roles db) role Hnd Hr). reflexivity.
Qed.

Lemma get_role_missing id db :
  id ∉ (role_id <$> roles db) →
  get_role id db
  = (Raise (HTTPException 404 ("Role with ID " ++ pretty id ++ " not found")),
     db).
Proof.
  intros Hn. unfold get_role, get_db. py_unfold.
  rewrite (filter_key_absent role_id id (roles db) Hn). reflexivity.
Qed.

(** X17.  Deleting a role that no assignment row references removes that
    role and nothing else: accounts and assignments are untouched, a
    lookup of the deleted id answers 404, and every other role is still
    found under its id. *)
Theorem delete_role_removes_only_that_role id cu db role :
  db_wf db → authorised cu →
  role ∈ roles db → role_id role = id →
  (∀ row, row ∈ user_roles db → ur_role_id row ≠ id) →
  ∃ db1,
    delete_role id cu db
    = (Return {| response_success := true;
                 response_message := "Role deleted successfully";
                 response_data := None |}, db1)
    ∧ users db1 = users db ∧ user_roles db1 = user_roles db
    ∧ get_role id db1
      = (Raise (HTTPException 404
           ("Role with ID " ++ pretty id ++ " not found")), db1)
    ∧ ∀ other, other ∈ roles db → role_id other ≠ id →
        get_role (role_id other) db1
        = (Return {| response_success := true;
                     response_message := "Role retrieved successfully";
                     response_data := Some other |}, db1).
Proof.
  intros Hwf Hauth Hr Hid Hnone. subst id.
  eexists. split.
  - unfold delete_role.
    rewrite (authorised_guard cu Hauth). unfold get_db. py_unfold.
    rewrite (filter_key_present role_id (roles db) role
               (wf_role_ids db Hwf) Hr).
    simpl.
    rewrite (filter_none _ (user_roles db))
      by (intros a Ha; by apply Hnone).
    simpl. unfold delete_role_row. reflexivity.
  - simpl. split; [reflexivity|]. split.
    { apply filter_all. intros a Ha. by apply Hnone. }
    split.
    + apply get_role_missing. simpl.
      intros (r & Hrid & Hrin)%list_elem_of_fmap_1.
      apply list_elem_of_filter in Hrin as [Hne _]. congruence.
    + intros other Ho Hne. apply get_role_found; simpl; auto.
      * apply NoDup_fmap_filter, (wf_role_ids db Hwf).
      * by apply list_elem_of_filter.
Qed.


(** X19.  The permission check comes first: a caller who is neither a
    superuser nor has the role "admin" gets status 403 from every
    handler that changes roles or assignments, whatever the arguments
    and whatever the database holds, and the database is not changed. *)
Theorem role_changes_need_permission cu db :
  is_superuser cu = false → has_role cu "admin" = false →
  (∀ rd, create_role rd cu db
         = (Raise (HTTPException 403
              "Insufficient permissions to create roles"), db))
  ∧ (∀ id rd, update_role id rd cu db
              = (Raise (HTTPException 403
                   "Insufficient permissions to update roles"), db))
  ∧ (∀ id, delete_role id cu db
           = (Raise (HTTPException 403
                "Insufficient permissions to delete roles"), db))
  ∧ (∀ asg, assign_role_to_user asg cu db
            = (Raise (HTTPException 403
                 "Insufficient permissions to assign roles"), db))
  ∧ (∀ id, remove_role_from_user id cu db
           = (Raise (HTTPException 403
                "Insufficient permissions to remove role assignments"), db)).
Proof.
  intros Hs Ha.
  unfold create_role, update_role, delete_role, assign_role_to_user,
    remove_role_from_user. rewrite Hs, Ha. simpl. done.
Qed.

(** *** Updating roles *)



(** The checks of [update_role] up to the comparison of names, for a
    caller that may update and an existing role. *)
Lemma update_role_checked id rd cu db role :
  db_wf db → authorised cu → role ∈ roles db → role_id role = id →
  update_role id rd cu db
  = (_ ← match update_name rd with
         | Some (Some n) =>
             if negb (String.eqb n "") && negb (String.eqb n (role_name role))
             then
               existing_role ← scalar_one_or_none
                 (filter (λ r, role_name r = n) (roles db));
               match existing_role with
               | Some _ =>
                   py_raise (HTTPException HTTP_400_BAD_REQUEST
                     ("Role with name '" ++ n ++ "' already exists"))
               | None => mret ()
               end
             else mret ()
         | _ => mret ()
         end;
     role' ← update_role_row id
       match update_name rd with
       | Some v => v
       | None => Some (role_name role)
       end
       match update_description rd with
       | Some v => v
       | None => role_description role
       end
       match update_permissions rd with
       | Some v => v
       | None => role_permissions role
       end
       match update_is_active rd with
       | Some v => v
       | None => Some (role_is_active role)
       end;
     mret {| response_success := true;
             response_message := "Role updated successfully";
             response_data := Some role' |}) db.
Proof.
  intros Hwf Hauth Hr <-. unfold update_role.
  rewrite (authorised_guard cu Hauth). unfold get_db. py_unfold.
  rewrite (filter_key_present role_id (roles db) role (wf_role_ids db Hwf) Hr).
  reflexivity.
Qed.


(** X21.  Columns that are [NOT NULL] cannot be cleared: an update whose
    body sets [name] to [null], or leaves the name out and sets
    [is_active] to [null], passes the checks of the handler and fails at
    the commit with [IntegrityError]; the role is unchanged. *)
Theorem update_role_null_column_fails id rd cu db role :
  db_wf db → authorised cu →
  role ∈ roles db → role_id role = id →
  update_name rd = Some None
  ∨ (update_name rd = None ∧ update_is_active rd = Some None) →
  update_role id rd cu db = (Raise IntegrityError, db).
Proof.
  intros Hwf Hauth Hr Hid Hnull.
  rewrite (update_role_checked id rd cu db role) by done.
  py_unfold. unfold update_role_row.
  destruct Hnull as [-> | [-> ->]]; reflexivity.
Qed.

Lemma update_role_row_Return id n d ps a db row db1 :
  update_role_row id n d ps a db = (Return row, db1) →
  ∃ n' a',
    n = Some n' ∧ a = Some a'
    ∧ row = {| role_id := id; role_name := n'; role_description := d;
               role_permissions := ps; role_is_active := a' |}
    ∧ (∀ r, r ∈ roles db → role_id r ≠ id → role_name r ≠ n')
    ∧ db1 = {| users := users db;
               roles := map (λ r, if role_id r =? id then row else r)
                          (roles db);
               user_roles := user_roles db;
               roles_id_seq := roles_id_seq db;
               user_roles_id_seq := user_roles_id_seq db;
               db_now := db_now db |}.
Proof.
  unfold update_role_row. destruct n as [n'|]; [|discriminate].
  destruct a as [a'|]; [|discriminate].
  destruct (existsb _ (roles db)) eqn:Hex; [discriminate|].
  intros [= <- <-]. exists n', a'. repeat split.
  intros r Hr Hne Hname.
  pose proof (proj1 (existsb_false_iff _ _) Hex r Hr) as Hf. simpl in Hf.
  apply andb_false_iff in Hf as [Hf|Hf].
  - apply negb_false_iff, Z.eqb_eq in Hf. contradiction.
  - apply String.eqb_neq in Hf. contradiction.
Qed.

Lemma update_role_Return id rd cu db role resp db1 :
  db_wf db → authorised cu → role ∈ roles db → role_id role = id →
  update_role id rd cu db = (Return resp, db1) →
  ∃ row,
    update_role_row id
      match update_name rd with
      | Some v => v
      | None => Some (role_name role)
      end
      match update_description rd with
      | Some v => v
      | None => role_description role
      end
      match update_permissions rd with
      | Some v => v
      | None => role_permissions role
      end
      match update_is_active rd with
      | Some v => v
      | None => Some (role_is_active role)
      end db = (Return row, db1)
    ∧ response_data resp = Some row.
Proof.
  intros Hwf Hauth Hr Hid.
  rewrite (update_role_checked id rd cu db role) by done.
  py_unfold.
  match goal with |- context [update_role_row ?i ?n ?d ?p ?a] =>
    set (upd := update_role_row i n d p a) end.
  assert (Hfin : ∀ s,
    match upd s with
    | (Return a0, s') =>
        (Return {| response_success := true;
                   response_message := "Role updated successfully";
                   response_data := Some a0 |}, s')
    | (Raise e0, s') => (Raise e0, s')
    end = (Return resp, db1) →
    ∃ row, upd s = (Return row, db1) ∧ response_data resp = Some row).
  { intros s. destruct (upd s) as [[row|e0] s']; [|discriminate].
    intros [= <- <-]. eauto. }
  destruct (update_name rd) as [[n|]|]; try apply Hfin.
  destruct (negb (String.eqb n "") && negb (String.eqb n (role_name role)));
    [|apply Hfin].
  destruct (filter _ (roles db)) as [|x [|y l]]; simpl;
    try discriminate; apply Hfin.
Qed.

(** X22.  A successful [update_role] changes the columns that the body
    sets and no others: the answer carries the updated row, in which
    every field that the body leaves out has the value it had; the other
    roles, the ids, the accounts and the assignments are as they were. *)
Theorem update_role_changes_only_sent_fields id rd cu db role resp db1 :
  db_wf db → authorised cu → role ∈ roles db → role_id role = id →
  update_role id rd cu db = (Return resp, db1) →
  ∃ row,
    response_data resp = Some row
    ∧ role_id row = id
    ∧ Some (role_name row) = default (Some (role_name role)) (update_name rd)
    ∧ role_description row
      = default (role_description role) (update_description rd)
    ∧ role_permissions row
      = default (role_permissions role) (update_permissions rd)
    ∧ Some (role_is_active row)
      = default (Some (role_is_active role)) (update_is_active rd)
    ∧ roles db1 = map (λ r, if role_id r =? id then row else r) (roles db)
    ∧ users db1 = users db ∧ user_roles db1 = user_roles db.
Proof.
  intros Hwf Hauth Hr Hid Hu.
  destruct (update_role_Return id rd cu db role resp db1 Hwf Hauth Hr Hid Hu)
    as (row & Hrow & Hresp).
  apply update_role_row_Return in Hrow
    as (n' & a' & Hn & Ha & -> & _ & ->).
  eexists. split; [exact Hresp|]. simpl.
  split; [reflexivity|]. split; [|split; [|split; [|split; [|done]]]].
  - rewrite <- Hn. by destruct (update_name rd).
  - by destruct (update_description rd).
  - by destruct (update_permissions rd).
  - rewrite <- Ha. by destruct (update_is_active rd).
Qed.

(** *** Every handler keeps the constraints of the schema *)

Lemma replace_row_ids id (row : RoleRow) (l : list RoleRow) :
  role_id row = id →
  role_id <$> map (λ r, if role_id r =? id then row else r) l = role_id <$> l.
Proof.
  intros Hrow. induction l as [|a l IH]; [reflexivity|].
  cbn [map]. rewrite !fmap_cons. f_equal; [|exact IH].
  destruct (Z.eqb_spec (role_id a) id); congruence.
Qed.

Lemma replace_row_names id (row : RoleRow) (l : list RoleRow) :
  NoDup (role_id <$> l) → NoDup (role_name <$> l) →
  (∀ r, r ∈ l → role_id r ≠ id → role_name r ≠ role_name row) →
  NoDup (role_name <$> map (λ r, if role_id r =? id then row else r) l).
Proof.
  induction l as [|a l IH]; [intros; apply NoDup_nil_2|].
  rewrite !fmap_cons. intros [Hia Hi]%NoDup_cons [Hna Hn]%NoDup_cons Hfresh.
  apply NoDup_cons. split.
  - intros (b & Hb & Hbin)%list_elem_of_fmap_1.
    change (b ∈ (λ r, if role_id r =? id then row else r) <$> l) in Hbin.
    apply list_elem_of_fmap_1 in Hbin as (c & -> & Hc).
    destruct (Z.eqb_spec (role_id a) id) as [Ea|Ea];
      destruct (Z.eqb_spec (role_id c) id) as [Ec|Ec].
    + apply Hia. rewrite Ea, <- Ec. by apply list_elem_of_fmap_2.
    + apply (Hfresh c); [by right|done|done].
    + apply (Hfresh a); [by left|done|done].
    + apply Hna. rewrite Hb. by apply list_elem_of_fmap_2.
  - apply IH; auto. intros r Hr. apply Hfresh. by right.
Qed.

Local Opaque update_role_row.

Lemma update_role_wf id rd cu db r db' :
  db_wf db → update_role id rd cu db = (r, db') → db_wf db'.
Proof.
  intros Hwf Hu. destruct r as [resp|e];
    [|by apply update_role_Raise in Hu as ->].
  revert Hu. unfold update_role.
  destruct (negb (is_superuser cu) && negb (has_role cu "admin")) eqn:Hg;
    [discriminate|].
  unfold get_db. py_unfold.
  destruct (filter (λ r, role_id r = id) (roles db))
    as [|role [|y l]] eqn:Hf; simpl; try discriminate.
  assert (Hrole : role ∈ roles db ∧ role_id role = id).
  { assert (Hin : role ∈ filter (λ r, role_id r = id) (roles db))
      by (rewrite Hf; left).
    apply list_elem_of_filter in Hin. tauto. }
  destruct Hrole as [Hr Hid].
  intros Hu.
  assert (Hrow : ∃ n d ps a row,
            update_role_row (role_id role) n d ps a db = (Return row, db')).
  { revert Hu.
    destruct (update_name rd) as [[n|]|]; simpl.
    - destruct (negb (String.eqb n "") && negb (String.eqb n (role_name role)));
        simpl.
      + destruct (filter (λ r, role_name r = n) (roles db))
          as [|x [|z l']]; simpl; try discriminate.
        match goal with |- context [update_role_row ?i ?n ?d ?p ?a db] =>
          destruct (update_role_row i n d p a db) as [[row|e0] s'] eqn:Hrow
        end; [|discriminate].
        intros [= _ <-]. eauto 10.
      + match goal with |- context [update_role_row ?i ?n ?d ?p ?a db] =>
          destruct (update_role_row i n d p a db) as [[row|e0] s'] eqn:Hrow
        end; [|discriminate].
        intros [= _ <-]. eauto 10.
    - match goal with |- context [update_role_row ?i ?n ?d ?p ?a db] =>
        destruct (update_role_row i n d p a db) as [[row|e0] s'] eqn:Hrow
      end; [|discriminate].
      intros [= _ <-]. eauto 10.
    - match goal with |- context [update_role_row ?i ?n ?d ?p ?a db] =>
        destruct (update_role_row i n d p a db) as [[row|e0] s'] eqn:Hrow
      end; [|discriminate].
      intros [= _ <-]. eauto 10. }
  destruct Hrow as (n & d & ps & a & row & Hrow).
  apply update_role_row_Return in Hrow
    as (n' & a' & -> & -> & -> & Hfresh & ->).
  destruct Hwf as [W1 W2 W3 W4 W5 W6 W7 W8 W9].
  split; simpl; auto.
  - by rewrite replace_row_ids.
  - by apply replace_row_names.
  - intros r0 Hr0. apply list_elem_of_In, in_map_iff in Hr0 as (c & <- & Hc).
    apply list_elem_of_In in Hc.
    destruct (role_id c =? role_id role); simpl; auto.
  - intros r0 Hr0. rewrite replace_row_ids by reflexivity. auto.
Qed.

Local Transparent update_role_row.

Lemma create_role_wf_any rd cu db r db' :
  db_wf db → create_role rd cu db = (r, db') → db_wf db'.
Proof.
  intros Hwf. unfold create_role.
  destruct (negb (is_superuser cu) && negb (has_role cu "admin")) eqn:Hg;
    [by intros [= _ <-]|].
  destruct r as [resp|e]; intros Hc.
  - apply (create_role_wf rd cu db resp db'); auto.
    unfold authorised. apply andb_false_iff in Hg as [Hg|Hg];
      apply negb_false_iff in Hg; auto.
    unfold create_role. by rewrite Hg, ?andb_false_r.
  - assert (Hc' : create_role rd cu db = (Raise e, db'))
      by (unfold create_role; by rewrite Hg).
    by apply create_role_Raise in Hc' as ->.
Qed.

(** X23.  The constraints of the schema are an invariant of the
    handlers: whatever the caller, the arguments and the outcome, after
    [create_role], [update_role], [delete_role], [assign_role_to_user] or
    [remove_role_from_user] role names and ids are still unique, there is
    still at most one assignment row for each pair of account and role,
    and every assignment still references an existing account and role. *)
Theorem role_handlers_keep_schema_constraints cu db :
  db_wf db →
  (∀ rd r db', create_role rd cu db = (r, db') → db_wf db')
  ∧ (∀ id rd r db', update_role id rd cu db = (r, db') → db_wf db')
  ∧ (∀ id r db', delete_role id cu db = (r, db') → db_wf db')
  ∧ (∀ asg r db', assign_role_to_user asg cu db = (r, db') → db_wf db')
  ∧ (∀ id r db', remove_role_from_user id cu db = (r, db') → db_wf db').
Proof.
  intros Hwf.
  split; [intros rd r db'; by apply create_role_wf_any|].
  split; [intros id rd r db'; by apply update_role_wf|].
  split; [intros id r db'; by apply delete_role_wf|].
  split; [intros asg r db'; by apply assign_role_to_user_wf|].
  intros id r db'; by apply remove_role_from_user_wf.
Qed.

(** *** Listing assignments and roles *)

Lemma get_user_roles_found uid active_only db u :
  db_wf db → u ∈ users db → u_id u = uid →
  get_user_roles uid active_only db
  = (let assignments :=
       filter (λ r, ur_user_id r = uid
                    ∧ (active_only = true → ur_is_active r = true))
         (user_roles db) in
     Return {| list_success := true;
               list_message :=
                 "Retrieved " ++ pretty (Z.of_nat (length assignments))
                 ++ " role assignments for user";
               list_data := assignments;
               list_total := Z.of_nat (length assignments) |}, db).
Proof.
  intros Hwf Hu <-. unfold get_user_roles, get_db. py_unfold.
  rewrite (filter_key_present u_id (users db) u (wf_user_ids db Hwf) Hu).
  reflexivity.
Qed.

(** X24.  A revoked assignment leaves the default listing of its account
    and stays in the full one: after [remove_role_from_user],
    [get_user_roles] with [active_only] lists no row with the revoked id,
    and without [active_only] it still lists the row, now inactive, with
    its grant data unchanged. *)
Theorem revoked_assignment_stays_listed uid cu db u row :
  db_wf db → authorised cu →
  u ∈ users db → u_id u = uid →
  row ∈ user_roles db → ur_user_id row = uid →
  ∃ resp db1 active all,
    remove_role_from_user (ur_id row) cu db = (Return resp, db1)
    ∧ get_user_roles uid true db1 = (Return active, db1)
    ∧ get_user_roles uid false db1 = (Return all, db1)
    ∧ (∀ r, r ∈ list_data active → ur_id r ≠ ur_id row)
    ∧ {| ur_id := ur_id row; ur_user_id := uid;
         ur_role_id := ur_role_id row;
         ur_assigned_at := ur_assigned_at row;
         ur_assigned_by := ur_assigned_by row;
         ur_is_active := false |} ∈ list_data all
    ∧ list_total all = Z.of_nat (length (list_data all)).
Proof.
  intros Hwf Hauth Hu Huid Hrow Hruid.
  pose proof (remove_role_from_user_found (ur_id row) cu db row
                Hwf Hauth Hrow eq_refl) as H1.
  set (g := λ r : UserRoleRow, if ur_id r =? ur_id row then _ else r) in H1.
  pose proof (remove_role_from_user_wf _ cu db _ _ Hwf H1) as Hwf1.
  eexists _, _, _, _. split; [exact H1|].
  split; [by apply (get_user_roles_found uid true _ u)|].
  split; [by apply (get_user_roles_found uid false _ u)|].
  simpl. split; [|split; [|reflexivity]].
  - intros r [(_ & Hact) Hr]%list_elem_of_filter Hid.
    apply list_elem_of_In, in_map_iff in Hr as (r0 & <- & _).
    specialize (Hact eq_refl). unfold g in Hact, Hid.
    destruct (ur_id r0 =? ur_id row) eqn:E; simpl in *; [discriminate|].
    apply Z.eqb_neq in E. contradiction.
  - apply list_elem_of_filter. split; [split; [reflexivity|discriminate]|].
    apply list_elem_of_In, in_map_iff. exists row.
    split; [|by apply list_elem_of_In].
    unfold g. rewrite Z.eqb_refl, Hruid. reflexivity.
Qed.

Section Listing.

Variable ilike : string → string → bool.
Variable order_by_name : list RoleRow → list RoleRow.

(** X25.  A page of [get_roles]: when the ordering of the database only
    rearranges the selected rows, the answer is a success that leaves
    the database alone; [total] counts all selected roles; the page
    holds [limit] roles, or those left after [skip] if they are fewer;
    every role on it is a selected role of the table (an active one under
    [active_only]); [has_next] says exactly that selected roles remain
    after the page, and [has_prev] that [skip] is positive. *)
Theorem get_roles_page skip limit active_only search db :
  0 ≤ skip → 1 ≤ limit →
  (∀ l, order_by_name l ≡ₚ l) →
  ∃ resp,
    get_roles ilike order_by_name skip limit active_only search db
    = (Return resp, db)
    ∧ roles_total resp
      = Z.of_nat (length (filter
          (λ r, role_selected ilike active_only search r = true) (roles db)))
    ∧ Z.of_nat (length (roles_data resp))
      = Z.min limit (Z.max 0 (roles_total resp - skip))
    ∧ (∀ r, r ∈ roles_data resp →
         r ∈ roles db
         ∧ role_selected ilike active_only search r = true
         ∧ (active_only = true → role_is_active r = true))
    ∧ (roles_has_next resp = true
       ↔ skip + Z.of_nat (length (roles_data resp)) < roles_total resp)
    ∧ (roles_has_prev resp = true ↔ 0 < skip).
Proof.
  intros Hskip Hlimit Hperm.
  eexists. split; [reflexivity|]. simpl.
  set (selected := filter _ (roles db)).
  assert (Hlen : length (order_by_name selected) = length selected)
    by apply Permutation_length, Hperm.
  assert (Hpage : Z.of_nat (length (take (Z.to_nat limit)
                    (drop (Z.to_nat skip) (order_by_name selected))))
                  = Z.min limit (Z.max 0 (Z.of_nat (length selected) - skip))).
  { rewrite length_take, length_drop, Hlen. lia. }
  split; [reflexivity|]. split; [exact Hpage|]. split; [|split].
  - intros r Hr.
    assert (Hsel : r ∈ selected).
    { rewrite <- (Hperm selected).
      eapply elem_of_sublist; [|apply sublist_drop].
      eapply elem_of_sublist; [exact Hr|apply sublist_take]. }
    apply list_elem_of_filter in Hsel as [Hsel Hin].
    split; [done|]. split; [done|].
    intros ->. unfold role_selected in Hsel.
    by apply andb_true_iff in Hsel as [? _].
  - rewrite Hpage, Z.ltb_lt. lia.
  - apply Z.ltb_lt.
Qed.

End Listing.

End RoleHandlers.

(** * Pagination and validation *)

(** X26.  [create_paginated_response] for a positive page size and a
    non-negative total: the status is 200, the items are passed through,
    [pages] is the least number of pages that hold [total] items,
    [has_next] says exactly that items remain after page [page], and
    [has_prev] that [page] is after the first; with a page size of zero
    there is no response (the division raises). *)
Theorem create_paginated_response_pages {A} (data : list A)
    (page per_page total : Z) (message : string)
    (meta : option (gmap string jval)) :
  0 < per_page → 0 ≤ total →
  (∃ resp,
     create_paginated_response data page per_page total message meta
     = Some (resp, 200)
     ∧ paginated_data resp = data
     ∧ (pages (pagination resp) - 1) * per_page < total
     ∧ total ≤ pages (pagination resp) * per_page
     ∧ (has_next (pagination resp) = true ↔ page * per_page < total)
     ∧ (has_prev (pagination resp) = true ↔ 1 < page))
  ∧ create_paginated_response data page 0 total message meta = None.
Proof.
  intros Hpp Htot. split; [|reflexivity].
  unfold create_paginated_response.
  destruct (per_page =? 0) eqn:E; [lia|].
  eexists. split; [reflexivity|]. simpl.
  set (pages := (total + per_page - 1) / per_page).
  assert (Hlo : pages * per_page ≤ total + per_page - 1).
  { unfold pages. rewrite Z.mul_comm. apply Z.mul_div_le. lia. }
  assert (Hhi : total + per_page - 1 < (pages + 1) * per_page).
  { unfold pages.
    pose proof (Z.mod_pos_bound (total + per_page - 1) per_page Hpp).
    pose proof (Z.div_mod (total + per_page - 1) per_page). lia. }
  split; [reflexivity|]. split; [lia|]. split; [lia|]. split.
  - rewrite Z.ltb_lt. split; intros H; nia.
  - apply Z.ltb_lt.
Qed.








(** * The further properties on concrete inputs *)

Section FurtherScenarios.

Import Roles Examples.

Local Abbreviation cfg := default_settings.


Lemma refresh_token_accepted_until_expiry_witness :
  ∃ t, create_refresh_token clock0 cfg "u1" 0%nat = (Return t, 2%nat).
Proof.
  destruct (refresh_token_accepted_until_expiry clock0 cfg "u1" 0%nat)
    as (t & p & H & _); [reflexivity|].
  by exists t.
Defined.

Lemma create_token_pair_verifies_witness :
  ∃ a r, create_token_pair clock0 cfg "u1" 0%nat = (Return (a, r), 4%nat).
Proof.
  destruct (create_token_pair_verifies clock0 cfg "u1" 0%nat)
    as (a & r & pa & pr & H & _); [reflexivity|].
  by exists a, r.
Defined.

Lemma token_creation_failure_is_500_witness :
  create_access_token clock0 settings_unsupported "u1" None 0%nat
  = (Raise (HTTPException 500 "Failed to create access token"), 2%nat).
Proof.
  refine (proj1 (token_creation_failure_is_500 clock0 settings_unsupported
                   "u1" None 0%nat _)).
  intros p k. reflexivity.
Defined.

Lemma dispatch_attaches_verified_identity_witness :
  dispatch clock0 utc cfg gate_health_login
    (protected_request (Some ("Bearer " ++ access_token_u1))) 2%nat
  = (Return (CallNext forwarded_state), 6%nat).
Proof.
  refine (dispatch_attaches_verified_identity clock0 utc cfg
            gate_health_login
            (protected_request (Some ("Bearer " ++ access_token_u1)))
            access_token_u1
            (<["exp" := JInt 4600]> (<["sub" := JStr "u1"]>
               (<["type" := JStr "access"]> (<["iat" := JInt 1001]> ∅))))
            4600 2%nat _ _ _ _ _ _ _ _ _).
  - vm_compute. reflexivity.
  - vm_compute. reflexivity.
  - discriminate.
  - vm_compute. reflexivity.
  - vm_compute. reflexivity.
  - vm_compute. reflexivity.
  - discriminate.
  - vm_compute. split; discriminate.
  - vm_compute. reflexivity.
Defined.

Lemma dispatch_expired_by_local_time_witness :
  dispatch clock0 utc_minus_5 cfg gate_health_login
    (protected_request (Some ("Bearer " ++ access_token_u1))) 2%nat
  = (Return (Respond (handle_token_error "expired" None)), 4%nat).
Proof.
  refine (dispatch_expired_by_local_time clock0 utc_minus_5 cfg
            gate_health_login
            (protected_request (Some ("Bearer " ++ access_token_u1)))
            access_token_u1
            (<["exp" := JInt 4600]> (<["sub" := JStr "u1"]>
               (<["type" := JStr "access"]> (<["iat" := JInt 1001]> ∅))))
            4600 2%nat _ _ _ _ _ _ _ _).
  - vm_compute. reflexivity.
  - vm_compute. reflexivity.
  - discriminate.
  - vm_compute. reflexivity.
  - vm_compute. reflexivity.
  - discriminate.
  - vm_compute. split; discriminate.
  - vm_compute. discriminate.
Defined.

Lemma dispatch_forwards_only_verified_witness :
  ∃ token p,
    _extract_token (protected_request (Some ("Bearer " ++ access_token_u1)))
    = Some token
    ∧ verify_access_token clock0 cfg token 2%nat = (Return (Some p), 3%nat).
Proof.
  destruct (dispatch_forwards_only_verified clock0 utc cfg gate_health_login
              (protected_request (Some ("Bearer " ++ access_token_u1)))
              2%nat forwarded_state 6%nat)
    as (token & p & H1 & _ & H2 & _).
  - vm_compute. reflexivity.
  - vm_compute. reflexivity.
  - by exists token, p.
Defined.

Lemma state_accessors_after_dispatch_witness :
  get_current_user_id empty_state
  = Raise (HTTPException 401 "User not authenticated").
Proof.
  refine (proj1 (proj1 (state_accessors_after_dispatch clock0 utc cfg
            gate_default
            (protected_request (Some ("Bearer " ++ access_token_u1)))
            2%nat empty_state 2%nat _) _)).
  - vm_compute. reflexivity.
  - vm_compute. reflexivity.
Defined.

Lemma db0_assigned_wf active : db_wf (db0_assigned active).
Proof.
  split; simpl.
  1-3,5-6: repeat constructor; by intros Hx%elem_of_nil.
  - intros r Hr. apply list_elem_of_singleton in Hr as ->. simpl. lia.
  - intros r Hr. apply list_elem_of_singleton in Hr as ->. simpl. lia.
  - intros r Hr. apply list_elem_of_singleton in Hr as ->. simpl. by left.
  - intros r Hr. apply list_elem_of_singleton in Hr as ->. simpl. by left.
Qed.

Lemma db_two_roles_wf : db_wf db_two_roles.
Proof.
  split; simpl.
  - repeat constructor; by intros Hx%elem_of_nil.
  - apply NoDup_cons. split; [|apply NoDup_singleton].
    intros Hx%list_elem_of_singleton. discriminate.
  - apply NoDup_cons. split; [|apply NoDup_singleton].
    intros Hx%list_elem_of_singleton. discriminate.
  - intros r [->| ->%list_elem_of_singleton]%elem_of_cons; simpl; lia.
  - constructor.
  - constructor.
  - intros r Hr. by apply elem_of_nil in Hr.
  - intros r Hr. by apply elem_of_nil in Hr.
  - intros r Hr. by apply elem_of_nil in Hr.
Qed.

Lemma assign_role_to_user_first_grant_witness :
  ∃ resp, assign_role_to_user assign_u1_r1 admin db0
          = (Return resp, db0_assigned true).
Proof.
  eexists.
  refine (assign_role_to_user_first_grant assign_u1_r1 admin db0
            {| u_id := "u1"; u_email := "u1@example.com" |}
            {| role_id := 1; role_name := "editor";
               role_description := None;
               role_permissions := Some ["read"; "write"];
               role_is_active := true |} db0_wf _ _ _ _ _ _ _).
  - left. reflexivity.
  - left.
  - reflexivity.
  - left.
  - reflexivity.
  - reflexivity.
  - intros row Hrow. by apply elem_of_nil in Hrow.
Defined.

Lemma remove_role_from_user_idempotent_witness :
  ∃ resp db1,
    remove_role_from_user 1 admin (db0_assigned true) = (Return resp, db1)
    ∧ remove_role_from_user 1 admin db1 = (Return resp, db1).
Proof.
  destruct (remove_role_from_user_idempotent 1 admin (db0_assigned true)
              (row_u1_r1 true) (db0_assigned_wf true))
    as (resp & db1 & H1 & H2 & _).
  - left. reflexivity.
  - left.
  - reflexivity.
  - by exists resp, db1.
Defined.

Lemma delete_role_removes_only_that_role_witness :
  ∃ db1,
    delete_role 2 admin db_two_roles
    = (Return {| response_success := true;
                 response_message := "Role deleted successfully";
                 response_data := None |}, db1).
Proof.
  destruct (delete_role_removes_only_that_role 2 admin db_two_roles
              role_admin db_two_roles_wf) as (db1 & H & _).
  - left. reflexivity.
  - right. left.
  - reflexivity.
  - intros row Hrow. by apply elem_of_nil in Hrow.
  - by exists db1.
Defined.


Lemma role_changes_need_permission_witness :
  delete_role 1 visitor db0
  = (Raise (HTTPException 403 "Insufficient permissions to delete roles"),
     db0).
Proof.
  refine (proj1 (proj2 (proj2 (role_changes_need_permission visitor db0
                                 _ _))) 1); reflexivity.
Defined.


Lemma update_role_null_column_fails_witness :
  update_role 1
    {| update_name := Some None; update_description := None;
       update_permissions := None; update_is_active := None |}
    admin db0
  = (Raise IntegrityError, db0).
Proof.
  refine (update_role_null_column_fails 1 _ admin db0
            {| role_id := 1; role_name := "editor";
               role_description := None;
               role_permissions := Some ["read"; "write"];
               role_is_active := true |} db0_wf _ _ _ _).
  - left. reflexivity.
  - left.
  - reflexivity.
  - left. reflexivity.
Defined.

Lemma update_role_changes_only_sent_fields_witness :
  ∃ row,
    role_name row = "editor" ∧ role_is_active row = false
    ∧ role_permissions row = Some ["read"; "write"].
Proof.
  destruct (update_role_changes_only_sent_fields 1
              {| update_name := None; update_description := None;
                 update_permissions := None;
                 update_is_active := Some (Some false) |}
              admin db0
              {| role_id := 1; role_name := "editor";
                 role_description := None;
                 role_permissions := Some ["read"; "write"];
                 role_is_active := true |}
              {| response_success := true;
                 response_message := "Role updated successfully";
                 response_data :=
                   Some {| role_id := 1; role_name := "editor";
                           role_description := None;
                           role_permissions := Some ["read"; "write"];
                           role_is_active := false |} |}
              {| users := users db0;
                 roles := [ {| role_id := 1; role_name := "editor";
                               role_description := None;
                               role_permissions := Some ["read"; "write"];
                               role_is_active := false |} ];
                 user_roles := []; roles_id_seq := 1;
                 user_roles_id_seq := 0; db_now := 5000 |}
              db0_wf)
    as (row & _ & _ & Hn & _ & Hp & Ha & _).
  - left. reflexivity.
  - left.
  - reflexivity.
  - vm_compute. reflexivity.
  - exists row. simpl in Hn, Hp, Ha.
    injection Hn as Hn. injection Ha as Ha. done.
Defined.

Lemma role_handlers_keep_schema_constraints_witness :
  ∃ r db', remove_role_from_user 1 admin (db0_assigned true) = (r, db')
           ∧ db_wf db'.
Proof.
  destruct (remove_role_from_user 1 admin (db0_assigned true))
    as [r db'] eqn:E.
  exists r, db'. split; [reflexivity|].
  exact (proj2 (proj2 (proj2 (proj2
    (role_handlers_keep_schema_constraints admin (db0_assigned true)
       (db0_assigned_wf true))))) 1 r db' E).
Defined.

Lemma revoked_assignment_stays_listed_witness :
  ∃ all db1,
    get_user_roles "u1" false db1 = (Return all, db1)
    ∧ row_u1_r1 false ∈ list_data all.
Proof.
  destruct (revoked_assignment_stays_listed "u1" admin (db0_assigned true)
              {| u_id := "u1"; u_email := "u1@example.com" |}
              (row_u1_r1 true) (db0_assigned_wf true))
    as (resp & db1 & active & all & _ & _ & H & _ & Hin & _).
  - left. reflexivity.
  - left.
  - reflexivity.
  - left.
  - reflexivity.
  - by exists all, db1.
Defined.

Lemma get_roles_page_witness :
  ∃ resp,
    get_roles (λ _ _, true) (λ l, l) 1 1 true None db_two_roles
    = (Return resp, db_two_roles)
    ∧ roles_total resp = 2.
Proof.
  destruct (get_roles_page (λ _ _, true) (λ l, l) 1 1 true None db_two_roles)
    as (resp & H & Ht & _).
  - lia.
  - lia.
  - reflexivity.
  - exists resp. split; [exact H|]. rewrite Ht. reflexivity.
Defined.

Lemma create_paginated_response_pages_witness :
  ∃ resp,
    create_paginated_response ["a"; "b"; "c"] 1 3 7 "Data retrieved successfully"
      None = Some (resp, 200)
    ∧ has_next (pagination resp) = true.
Proof.
  destruct (create_paginated_response_pages ["a"; "b"; "c"] 1 3 7
              "Data retrieved successfully" None)
    as [(resp & H & _ & _ & _ & Hn & _) _].
  - lia.
  - lia.
  - exists resp. split; [exact H|]. apply Hn. lia.
Defined.


End FurtherScenarios.
